(** * ParameterValidator: a shallow embedding of [src/ParameterValidator.js]

    The validator reads a caller-supplied object of named values, interprets a
    list of rule descriptors against it, writes the validated entries into an
    output object and raises one aggregate error when a rule failed.

    The embedding keeps the shape of the JavaScript source:
    - JavaScript values are a first-order type [value]; objects and functions
      live in a [store] and are denoted by references, so that the caller's
      output object is updated in place and aliasing is visible;
    - [throw] is an [outcome]; code that also updates the store runs in the
      state-and-exception type [M];
    - every method of the class is one definition of the same name.

    Modelling range.  The built-in prototypes are those of ECMAScript 2015
    to 2024 and nobody has changed them.  A plain object of the store is an
    extensible object whose prototype is [Object.prototype] and whose own
    properties are writable, enumerable data properties with string keys: what
    an object literal or [JSON.parse] creates.  A function of the store is an
    ordinary function: its [name] and [length] are read-only, it is total and
    pure on its argument, and its source text is what string coercion prints.
    Numbers are the integers ([VNum]) and [NaN]; arrays occur only as the
    rule list and its groups; there are no symbols and no getters.  The
    order of the keys of a store object is not recorded; that of the objects
    local to a method is.  The
    [options] argument of [validate] is an object, and an error class builds
    its instances as [Error] does: the instance carries the message it is
    given.  The text of a [TypeError] that the language raises is the one V8
    gives it.

    Where a step depends on what lies outside this range (a property that
    only a built-in prototype provides, the string form of an object with a
    [toString] of its own or of an integer that is not a safe one, a write
    that would replace a prototype) its outcome is [Beyond], and nothing is
    stated about the run from there on. *)

From Stdlib Require Import ZArith NArith Ascii String DecimalString.
From stdpp Require Import gmap strings list fin_maps.

Local Open Scope string_scope.
Local Open Scope list_scope.

(** ** Values *)

Definition loc := nat.

Inductive value :=
| VUndefined
| VNull
| VBool (b : bool)
| VNum (z : Z)
| VNaN
| VStr (s : string)
| VRef (l : loc).

Inductive jstype :=
| TUndefined | TObject | TBoolean | TNumber | TString | TFunction.

#[global] Instance value_eq_dec : EqDecision value.
Proof. solve_decision. Defined.

#[global] Instance jstype_eq_dec : EqDecision jstype.
Proof. solve_decision. Defined.

(** A store object is a plain object or a function.  A function carries its
    source text and its behaviour.  The table holds the own properties that
    were written by assignment or by a literal. *)
Inductive objkind :=
| PlainObject
| FunctionObject (source : string) (call : value → value).

Record object := Obj { okind : objkind; oprops : gmap string value }.

Abbreviation store := (gmap loc object).

(** A reference that the store does not bind reads as an empty plain object. *)
Definition kind_of (σ : store) (l : loc) : objkind :=
  match σ !! l with Some o => okind o | None => PlainObject end.

Definition props_of (σ : store) (l : loc) : gmap string value :=
  match σ !! l with Some o => oprops o | None => ∅ end.

(** The own data property [k] of the object at [l] becomes [v]. *)
Definition set_prop (σ : store) (l : loc) (k : string) (v : value) : store :=
  <[l := Obj (kind_of σ l) (<[k := v]> (props_of σ l))]> σ.

(** [{}]: a new object at an unused location. *)
Definition fresh_loc (σ : store) : loc := fresh (dom σ).

Definition empty_object : object := Obj PlainObject ∅.

(** ** Errors *)

Inductive error_class :=
| Error_
| TypeError_
| ParameterValidationError_
| Subclass (name : string) (parent : error_class).

#[global] Instance error_class_eq_dec : EqDecision error_class.
Proof. solve_decision. Defined.

Record error := mkError { eclass : error_class; emessage : string }.

#[global] Instance error_eq_dec : EqDecision error.
Proof. solve_decision. Defined.

(** [e instanceof C], through the [extends] chain of the class of [e]. *)
Fixpoint extends_ (c target : error_class) : bool :=
  if decide (c = target) then true
  else match c with
       | Error_ => false
       | TypeError_ | ParameterValidationError_ => bool_decide (target = Error_)
       | Subclass _ parent => extends_ parent target
       end.

Definition instanceof (e : error) (c : error_class) : bool := extends_ (eclass e) c.

(** What a piece of code comes to: a value, an error thrown, or a step
    outside the modelling range. *)
Inductive outcome (A : Type) :=
| Return (a : A)
| Throw (e : error)
| Beyond.
Arguments Return {A} a.
Arguments Throw {A} e.
Arguments Beyond {A}.

Definition obind {A B} (c : outcome A) (k : A → outcome B) : outcome B :=
  match c with Return a => k a | Throw e => Throw e | Beyond => Beyond end.

(** State and exceptions: the store survives a [throw]. *)
Definition M (A : Type) : Type := store → store * outcome A.

Definition ret {A} (a : A) : M A := λ σ, (σ, Return a).
Definition raise {A} (e : error) : M A := λ σ, (σ, Throw e).
Definition bind {A B} (c : M A) (k : A → M B) : M B :=
  λ σ, match c σ with
       | (σ', Return a) => k a σ'
       | (σ', Throw e) => (σ', Throw e)
       | (σ', Beyond) => (σ', Beyond)
       end.
(** A computation that only reads the store. *)
Definition reading {A} (c : store → outcome A) : M A := λ σ, (σ, c σ).

Declare Scope js_scope.
Delimit Scope js_scope with js.
Notation "'let!' x ':=' c 'in' k" := (bind c (λ x, k))
  (at level 10, x pattern, c at level 100, k at level 200) : js_scope.
Notation "'let?' x ':=' c 'in' k" := (obind c (λ x, k))
  (at level 10, x pattern, c at level 100, k at level 200) : js_scope.
Local Open Scope js_scope.

(** ** Primitive operations of the language *)

Definition truthy (v : value) : bool :=
  match v with
  | VUndefined | VNull | VNaN => false
  | VBool b => b
  | VNum z => negb (z =? 0)%Z
  | VStr s => negb (String.eqb s "")
  | VRef _ => true
  end.

Definition typeof (σ : store) (v : value) : jstype :=
  match v with
  | VUndefined => TUndefined
  | VNull => TObject
  | VBool _ => TBoolean
  | VNum _ | VNaN => TNumber
  | VStr _ => TString
  | VRef l => match kind_of σ l with
              | PlainObject => TObject
              | FunctionObject _ _ => TFunction
              end
  end.

Definition typeof_name (t : jstype) : string :=
  match t with
  | TUndefined => "undefined"
  | TObject => "object"
  | TBoolean => "boolean"
  | TNumber => "number"
  | TString => "string"
  | TFunction => "function"
  end.

Definition nullish (v : value) : bool :=
  match v with VUndefined | VNull => true | _ => false end.

(** The keys of [Object.prototype], which every object and every primitive
    other than [undefined] and [null] inherits. *)
Definition object_prototype_keys : list string :=
  ["constructor"; "hasOwnProperty"; "isPrototypeOf"; "propertyIsEnumerable";
   "toLocaleString"; "toString"; "valueOf"; "__proto__";
   "__defineGetter__"; "__defineSetter__"; "__lookupGetter__"; "__lookupSetter__"].

(** The keys that a number finds on [Number.prototype] and above; those of
    [Boolean.prototype] are all keys of [Object.prototype] too. *)
Definition number_prototype_keys : list string :=
  ["toExponential"; "toFixed"; "toPrecision"] ++ object_prototype_keys.

(** The keys that a function has of its own or finds on [Function.prototype]
    and above. *)
Definition function_keys : list string :=
  ["length"; "name"; "prototype"; "arguments"; "caller"; "apply"; "bind"; "call"]
  ++ object_prototype_keys.

(** The integers that a number holds exactly and prints digit by digit. *)
Definition safe_integer (z : Z) : bool := (Z.abs z <=? 9007199254740991)%Z.

(** Template-literal coercion [`${v}`].  An object without a [toString] of
    its own is printed by the one it inherits. *)
Definition to_string (σ : store) (v : value) : outcome string :=
  match v with
  | VUndefined => Return "undefined"
  | VNull => Return "null"
  | VBool true => Return "true"
  | VBool false => Return "false"
  | VNum z => if safe_integer z then Return (NilZero.string_of_int (Z.to_int z)) else Beyond
  | VNaN => Return "NaN"
  | VStr s => Return s
  | VRef l =>
      match props_of σ l !! "toString" with
      | Some _ => Beyond
      | None => Return match kind_of σ l with
                       | PlainObject => "[object Object]"
                       | FunctionObject source _ => source
                       end
      end
  end.

(** The non-negative integer that a property key writes in canonical form,
    if it does. *)
Definition index_of_key (k : string) : option N :=
  match NilZero.uint_of_string k with
  | Some d => let i := N.of_uint d in
              if String.eqb (NilZero.string_of_uint (N.to_uint i)) k then Some i else None
  | None => None
  end.

(** An array index is such an integer below [2^32 - 1]. *)
Definition array_index (k : string) : option N :=
  match index_of_key k with
  | Some i => if (i <? 4294967295)%N then Some i else None
  | None => None
  end.

(** [s[i]] *)
Definition char_at (s : string) (i : N) : value :=
  if (i <? N.of_nat (String.length s))%N
  then match String.get (N.to_nat i) s with
       | Some c => VStr (String c EmptyString)
       | None => VUndefined
       end
  else VUndefined.

(** A key that is not an own property is looked up on the prototypes: one
    of their keys leads outside the range, any other key reads [undefined]. *)
Definition inherited (keys : list string) (k : string) : outcome value :=
  if bool_decide (k ∈ keys) then Beyond else Return VUndefined.

(** [base[k]]: reading a property of [undefined] or [null] is a [TypeError].
    A string has its length and its characters; what else it answers to
    depends on [String.prototype]. *)
Definition get (σ : store) (base : value) (k : string) : outcome value :=
  match base with
  | VUndefined =>
      Throw (mkError TypeError_ ("Cannot read properties of undefined (reading '" +:+ k +:+ "')"))
  | VNull =>
      Throw (mkError TypeError_ ("Cannot read properties of null (reading '" +:+ k +:+ "')"))
  | VBool _ => inherited object_prototype_keys k
  | VNum _ | VNaN => inherited number_prototype_keys k
  | VStr s =>
      if String.eqb k "length" then Return (VNum (Z.of_nat (String.length s)))
      else match index_of_key k with
           | Some i => Return (char_at s i)
           | None => Beyond
           end
  | VRef l =>
      match kind_of σ l with
      | PlainObject =>
          match props_of σ l !! k with
          | Some v => Return v
          | None => inherited object_prototype_keys k
          end
      | FunctionObject _ _ =>
          if bool_decide (k ∈ function_keys) then Beyond
          else Return (default VUndefined (props_of σ l !! k))
      end
  end.

(** [target[k] = v] in strict mode.  On an object without an own property
    [__proto__] that key is the accessor of [Object.prototype]: it replaces
    the prototype when [v] is an object or [null] and does nothing
    otherwise.  The [name] and the [length] of a function are read-only. *)
Definition assign (target : value) (k : string) (v : value) : M unit :=
  λ σ,
    match target with
    | VRef l =>
        if String.eqb k "__proto__"
        then match props_of σ l !! k with
             | Some _ => (set_prop σ l k v, Return tt)
             | None => match v with
                       | VRef _ | VNull => (σ, Beyond)
                       | _ => (σ, Return tt)
                       end
             end
        else match kind_of σ l with
             | PlainObject => (set_prop σ l k v, Return tt)
             | FunctionObject source _ =>
                 if bool_decide (k ∈ ["name"; "length"])
                 then (σ, Throw (mkError TypeError_
                                   ("Cannot assign to read only property '" +:+ k
                                    +:+ "' of function '" +:+ source +:+ "'")))
                 else if bool_decide (k ∈ ["prototype"; "arguments"; "caller"])
                 then (σ, Beyond)
                 else (set_prop σ l k v, Return tt)
             end
    | VUndefined =>
        (σ, Throw (mkError TypeError_
                     ("Cannot set properties of undefined (setting '" +:+ k +:+ "')")))
    | VNull =>
        (σ, Throw (mkError TypeError_
                     ("Cannot set properties of null (setting '" +:+ k +:+ "')")))
    | VStr _ => (σ, Beyond)
    | _ =>
        if String.eqb k "__proto__" then (σ, Return tt)
        else (σ, let? s := to_string σ target in
                 Throw (mkError TypeError_
                          ("Cannot create property '" +:+ k +:+ "' on "
                           +:+ typeof_name (typeof σ target) +:+ " '" +:+ s +:+ "'")))
    end.

(** [s.slice(0, -n)] *)
Definition slice_end (s : string) (n : nat) : string :=
  String.substring 0 (String.length s - n) s.

(** ** Local objects

    The objects that a rule method creates with [{}] and hands back inside
    its result never escape before they are read, so they are kept as the
    list of their own properties in the order in which [for..in] visits
    them: array indices in ascending order, then the other keys in the order
    of their creation. *)

Fixpoint alist_set (k : string) (v : value) (l : list (string * value))
    : list (string * value) :=
  match l with
  | [] => [(k, v)]
  | (k', v') :: l' => if String.eqb k k' then (k', v) :: l' else (k', v') :: alist_set k v l'
  end.

Fixpoint index_set (i : N) (k : string) (v : value) (l : list (string * value))
    : list (string * value) :=
  match l with
  | [] => [(k, v)]
  | (k', v') :: l' =>
      if String.eqb k k' then (k', v) :: l'
      else match array_index k' with
           | Some j => if (i <? j)%N then (k, v) :: l else (k', v') :: index_set i k v l'
           | None => (k, v) :: l
           end
  end.

(** [extractedParams[k] = v] on such an object.  It has no own property
    [__proto__] and cannot get one by assignment. *)
Definition local_set (k : string) (v : value) (l : list (string * value))
    : outcome (list (string * value)) :=
  if String.eqb k "__proto__"
  then match v with
       | VRef _ | VNull => Beyond
       | _ => Return l
       end
  else Return match array_index k with
              | Some i => index_set i k v l
              | None => alist_set k v l
              end.

(** ** The class [ParameterValidator] *)

Record ParameterValidator := { _defaultValidation : value }.

(** What a call site may put in function position: the method [isDefined] of
    the class, or a value supplied by the caller. *)
Inductive callee :=
| IsDefinedMethod
| Supplied (f : value).

Definition callee_type (σ : store) (c : callee) : jstype :=
  match c with
  | IsDefinedMethod => TFunction
  | Supplied f => typeof σ f
  end.

(** [isDefined(value)], lines 274-276. *)
Definition isDefined (v : value) : bool := negb (bool_decide (v = VUndefined)).

(** [f(arg)]: calling what is not a function is a [TypeError]. *)
Definition invoke (σ : store) (c : callee) (arg : value) : outcome value :=
  match c with
  | IsDefinedMethod => Return (VBool (isDefined arg))
  | Supplied f =>
      match f with
      | VRef l => match kind_of σ l with
                  | FunctionObject _ call => Return (call arg)
                  | PlainObject => Throw (mkError TypeError_ "isValid is not a function")
                  end
      | _ => Throw (mkError TypeError_ "isValid is not a function")
      end
  end.

(** [constructor(options)], lines 30-39.  [None] is a falsy [options];
    [Some dv] is an options object whose [defaultValidation] property reads
    [dv] ([undefined] when it has none). *)
Definition constructor (σ : store) (options : option value) : outcome ParameterValidator :=
  match options with
  | None => Return {| _defaultValidation := VUndefined |}
  | Some defaultValidation =>
      if negb (bool_decide (defaultValidation = VUndefined)
               || bool_decide (typeof σ defaultValidation = TFunction))
      then Throw (mkError ParameterValidationError_
                    "The optional defaultValidation parameter provided is not a function.")
      else Return {| _defaultValidation := defaultValidation |}
  end.

(** [get defaultValidation()], lines 152-154. *)
Definition defaultValidation (self : ParameterValidator) : callee :=
  if truthy (_defaultValidation self) then Supplied (_defaultValidation self)
  else IsDefinedMethod.

(** The singleton of line 281: [new ParameterValidator()]. *)
Definition parameterValidator : ParameterValidator := {| _defaultValidation := VUndefined |}.

(** One element of [paramRequirements], by the tests that [validate] applies
    to it: [Array.isArray], [typeof .. === 'object'], [typeof .. === 'string'].
    The elements of an array are property names.  The entries of an object
    are listed in [for..in] order; [null] is an object without entries.
    [ReqOther] is any value of another type. *)
Inductive requirement :=
| ReqArray (paramNames : list string)
| ReqObject (entries : list (string * value))
| ReqString (paramName : string)
| ReqOther.

Inductive requirements_arg :=
| AnArray (reqs : list requirement)
| NotAnArray.

(** [options.errorClass]: a class that is [Error] or extends it, or any
    other value. *)
Inductive errorClass_option :=
| AClass (c : error_class)
| AValue (v : value).

(** The [options] object of [validate]. *)
Record options := { addPrefix : value; errorClass : errorClass_option }.

Definition no_options : options := {| addPrefix := VUndefined; errorClass := AValue VUndefined |}.

(** What the two rule methods return: [{ errors, params }]. *)
Module Result.
Record validation_result := { errors : list string; params : list (string * value) }.
End Result.
Abbreviation validation_result := Result.validation_result.

(** [_assignProperties(targetObject, propertiesToAdd, prefix)], lines 163-168. *)
Fixpoint _assignProperties (targetObject : value) (propertiesToAdd : list (string * value))
    (prefix : string) : M unit :=
  match propertiesToAdd with
  | [] => ret tt
  | (propertyName, v) :: rest =>
      let! _ := assign targetObject (prefix +:+ propertyName) v in
      _assignProperties targetObject rest prefix
  end.

(** [_getExtractedParamsObject(extractedParams)], lines 177-191. *)
Definition _getExtractedParamsObject (extractedParams : value) : M value :=
  λ σ,
    if bool_decide (extractedParams ∈ [VNull; VUndefined])
    then let l := fresh_loc σ in (<[l := empty_object]> σ, Return (VRef l))
    else if bool_decide (typeof σ extractedParams ∈ [TObject; TFunction])
    then (σ, Return extractedParams)
    else (σ, let? s := to_string σ extractedParams in
             Throw (mkError Error_
                      ("Invalid value of '" +:+ s
                       +:+ "' was provided for the extractedParams parameter."))).

(** [_getValidationErrorSubclass(options)], lines 202-213.  No value of the
    model is an instance of [Error], so for an [AValue] other than
    [undefined] and [null] the test [errorClass.prototype instanceof Error]
    fails; on [null] the read of [prototype] is a [TypeError]. *)
Definition _getValidationErrorSubclass (σ : store) (opts : options) : outcome error_class :=
  match errorClass opts with
  | AValue VUndefined => Return ParameterValidationError_
  | AClass c => Return c
  | AValue VNull =>
      Throw (mkError TypeError_ "Cannot read properties of null (reading 'prototype')")
  | AValue v =>
      Throw (mkError Error_
               ("The errorClass provided was of type " +:+ typeof_name (typeof σ v)
                +:+ " and was not an Error subclass."))
  end.

(** The loop of lines 226-230. *)
Fixpoint logicalOr_loop (σ : store) (isValid : callee) (paramsProvided : value)
    (paramNames : list string) (extractedParams : list (string * value))
    : outcome (list (string * value)) :=
  match paramNames with
  | [] => Return extractedParams
  | paramName :: rest =>
      let? v := get σ paramsProvided paramName in
      let? ok := invoke σ isValid v in
      if truthy ok
      then let? extractedParams := local_set paramName v extractedParams in
           logicalOr_loop σ isValid paramsProvided rest extractedParams
      else logicalOr_loop σ isValid paramsProvided rest extractedParams
  end.

(** [_performLogicalOrParamValidation(paramsProvided, paramNames)], lines 221-245. *)
Definition _performLogicalOrParamValidation (self : ParameterValidator) (σ : store)
    (paramsProvided : value) (paramNames : list string) : outcome validation_result :=
  let isValid := defaultValidation self in
  let? extractedParams := logicalOr_loop σ isValid paramsProvided paramNames [] in
  let errors :=
    if Nat.eqb (length extractedParams) 0
    then
      let errorMessage :=
        fold_left (λ msg paramName, msg +:+ "'" +:+ paramName +:+ "', ") paramNames
                  "One of the following parameters must be included: " in
      [slice_end errorMessage 2 +:+ "."]
    else [] in
  Return {| Result.errors := errors; Result.params := extractedParams |}.

(** [_executeValidationFunction(paramsProvided, paramName, validationFunction)],
    lines 254-272. *)
Definition _executeValidationFunction (σ : store) (paramsProvided : value)
    (paramName : string) (validationFunction : callee) : outcome validation_result :=
  if negb (bool_decide (callee_type σ validationFunction = TFunction))
  then Throw (mkError Error_
                ("A paramRequirement value provided for the parameter " +:+ paramName
                 +:+ " is not a function."))
  else
    let? v := get σ paramsProvided paramName in
    let? r := invoke σ validationFunction v in
    if bool_decide (r = VBool true)
    then let? extractedParams := local_set paramName v [] in
         Return {| Result.errors := []; Result.params := extractedParams |}
    else let? s := to_string σ v in
         Return {| Result.errors := ["Invalid value of '" +:+ s
                                     +:+ "' was provided for parameter '" +:+ paramName +:+ "'."];
                   Result.params := [] |}.

(** The inner loop of lines 101-108, over the entries of one object. *)
Fixpoint entries_loop (paramsProvided extractedParams : value) (prefix : string)
    (entries : list (string * value)) (errors : list string) : M (list string) :=
  match entries with
  | [] => ret errors
  | (paramName, validationFunction) :: rest =>
      let! validationResult :=
        reading (λ σ, _executeValidationFunction σ paramsProvided paramName
                        (Supplied validationFunction)) in
      let! _ := _assignProperties extractedParams (Result.params validationResult) prefix in
      entries_loop paramsProvided extractedParams prefix rest
        (errors ++ Result.errors validationResult)%list
  end.

(** The body of the loop of lines 91-116, for one [paramRequirement]. *)
Definition validate_requirement (self : ParameterValidator)
    (paramsProvided extractedParams : value) (prefix : string)
    (paramRequirement : requirement) (errors : list string) : M (list string) :=
  match paramRequirement with
  | ReqArray paramNames =>
      if negb (Nat.eqb (length paramNames) 0)
      then
        let! validationResult :=
          reading (λ σ, _performLogicalOrParamValidation self σ paramsProvided paramNames) in
        let! _ := _assignProperties extractedParams (Result.params validationResult) prefix in
        ret (errors ++ Result.errors validationResult)%list
      else ret errors
  | ReqObject entries =>
      entries_loop paramsProvided extractedParams prefix entries errors
  | ReqString paramName =>
      if truthy (VStr paramName)
      then
        let! validationResult :=
          reading (λ σ, _executeValidationFunction σ paramsProvided paramName
                          (defaultValidation self)) in
        let! _ := _assignProperties extractedParams (Result.params validationResult) prefix in
        ret (errors ++ Result.errors validationResult)%list
      else ret errors
  | ReqOther => ret errors
  end.

Fixpoint validate_loop (self : ParameterValidator) (paramsProvided extractedParams : value)
    (prefix : string) (paramRequirements : list requirement) (errors : list string)
    : M (list string) :=
  match paramRequirements with
  | [] => ret errors
  | paramRequirement :: rest =>
      let! errors := validate_requirement self paramsProvided extractedParams prefix
                       paramRequirement errors in
      validate_loop self paramsProvided extractedParams prefix rest errors
  end.

(** [validate(paramsProvided, paramRequirements, extractedParams, options = {})],
    lines 69-130.  [typeof prefix !== 'string'] is the last branch of the
    match on [prefix]. *)
Definition validate (self : ParameterValidator) (paramsProvided : value)
    (paramRequirements : requirements_arg) (extractedParams : value) (opts : options)
    : M value :=
  let! extractedParams := _getExtractedParamsObject extractedParams in
  let! ValidationErrorSubclass := reading (λ σ, _getValidationErrorSubclass σ opts) in
  if negb (truthy paramsProvided)
  then raise (mkError ValidationErrorSubclass "A params object is required.")
  else
    match paramRequirements with
    | NotAnArray => raise (mkError Error_ "paramRequirements must be an array.")
    | AnArray paramRequirements =>
        let prefix := if truthy (addPrefix opts) then addPrefix opts else VStr "" in
        match prefix with
        | VStr prefix =>
            let! errors := validate_loop self paramsProvided extractedParams prefix
                             paramRequirements [] in
            if negb (Nat.eqb (length errors) 0)
            then
              let errorMessage := fold_left (λ msg error, msg +:+ error +:+ " ") errors "" in
              let errorMessage := slice_end errorMessage 1 in
              raise (mkError ValidationErrorSubclass errorMessage)
            else ret extractedParams
        | _ => raise (mkError Error_ "addPrefix option must be a string if provided.")
        end
    end.

(** ** Promises *)

(** How a promise ends up: fulfilled, rejected, or locked onto a thenable
    (an object with a callable [then]) whose [then] decides; [Unknown] when
    its job left the modelling range. *)
Inductive settlement :=
| Fulfilled (v : value)
| Rejected (e : error)
| Following (thenable : value)
| Unknown.

(** A promise waiting for its job on the microtask queue. *)
Inductive promise := Pending (job : store → store * settlement).

Definition run_job (pr : promise) (σ : store) : store * settlement :=
  match pr with Pending job => job σ end.

(** The test of promise resolution: an object whose [then] reads as a
    function. *)
Definition is_thenable (σ : store) (v : value) : bool :=
  match v with
  | VRef _ => match get σ v "then" with
              | Return f => bool_decide (typeof σ f = TFunction)
              | _ => false
              end
  | _ => false
  end.

(** [Promise.resolve().then(callback)]: nothing runs now; the job calls
    [callback] and resolves the promise with what it returns, or rejects it
    with what it throws. *)
Definition Promise_resolve_then (callback : M value) : M promise :=
  ret (Pending (λ σ, match callback σ with
                     | (σ', Return v) =>
                         (σ', if is_thenable σ' v then Following v else Fulfilled v)
                     | (σ', Throw e) => (σ', Rejected e)
                     | (σ', Beyond) => (σ', Unknown)
                     end)).

(** [validateAsync(...args)], lines 143-147. *)
Definition validateAsync (self : ParameterValidator) (paramsProvided : value)
    (paramRequirements : requirements_arg) (extractedParams : value) (opts : options)
    : M promise :=
  Promise_resolve_then (validate self paramsProvided paramRequirements extractedParams opts).

(** ** Vocabulary of the statements *)

(** The prefix in effect, lines 83-87. *)
Definition effective_prefix (opts : options) : value :=
  if truthy (addPrefix opts) then addPrefix opts else VStr "".


(** The message of line 265 for a parameter that reads [undefined]. *)
Definition undefined_message (paramName : string) : string :=
  "Invalid value of 'undefined' was provided for parameter '" +:+ paramName +:+ "'.".

(** The message of line 259. *)
Definition not_a_function_message (paramName : string) : string :=
  "A paramRequirement value provided for the parameter " +:+ paramName
  +:+ " is not a function.".

(** [errors.push(...)] in front of what a run of the loop yields. *)
Definition add_errors (errors : list string) (r : store * outcome (list string))
    : store * outcome (list string) :=
  (r.1, match r.2 with
        | Return es => Return (errors ++ es)%list
        | Throw e => Throw e
        | Beyond => Beyond
        end).

(** Lines 118-129: what [validate] makes of the run of its loop. *)
Definition conclude (cls : error_class) (t : value) (r : store * outcome (list string))
    : store * outcome value :=
  (r.1, match r.2 with
        | Return [] => Return t
        | Return errors => Throw (mkError cls (String.concat " " errors))
        | Throw e => Throw e
        | Beyond => Beyond
        end).




(** From [σ] to [σ'] only the property table of the object at [lt] may have
    changed. *)
Definition only_writes (lt : loc) (σ σ' : store) : Prop :=
  (∀ l, l ≠ lt → σ' !! l = σ !! l) ∧ kind_of σ' lt = kind_of σ lt.

(** Every reference denotes the same kind of object in both stores. *)
Definition same_kinds (σ σ' : store) : Prop := ∀ l, kind_of σ' l = kind_of σ l.

(** A descriptor that the loop of lines 91-116 passes over: an empty array,
    an object without entries, an empty string, a value of another type. *)
Definition skips (r : requirement) : bool :=
  match r with
  | ReqArray [] => true
  | ReqObject [] => true
  | ReqString s => negb (truthy (VStr s))
  | ReqOther => true
  | _ => false
  end.


(** No object of [σ] has disappeared in [σ']. *)
Definition store_grows (σ σ' : store) : Prop :=
  ∀ l, is_Some (σ !! l) → is_Some (σ' !! l).

(** The classes of the errors that the source raises with [new Error] or
    that the language raises itself. *)
Definition plain_class (e : error) : Prop :=
  eclass e = Error_ ∨ eclass e = TypeError_.

(** ** The objects of the test suite *)

Definition catNameIsCool (name : value) : value :=
  VBool (bool_decide (name ∈ [VStr "Lincoln"; VStr "Washington"; VStr "Roosevelt";
                              VStr "Garfield"])).

Definition dogNameIsCool (name : value) : value :=
  VBool (bool_decide (name ∈ [VStr "Tchaikovsky"; VStr "Gershwin"; VStr "Beethoven"])).

(** A predicate that answers with a truthy number instead of [true]. *)
Definition answersOne (_ : value) : value := VNum 1.

Definition plain (entries : list (string * value)) : object :=
  Obj PlainObject (list_to_map entries).

Definition zoo : store :=
  {[ 0%nat := plain [("cat", VStr "Garfield"); ("dog", VStr "Jake");
                     ("squirrel", VStr "Rocky"); ("mouse", VStr "Jerry")];
     1%nat := plain [("cat", VStr "Garfield"); ("dog", VStr "Jake")];
     2%nat := Obj (FunctionObject "function catNameIsCool(name) {}" catNameIsCool) ∅;
     3%nat := Obj (FunctionObject "function dogNameIsCool(name) {}" dogNameIsCool) ∅;
     4%nat := plain [("cat", VStr "Sylvester"); ("dog", VStr "Jake"); ("mouse", VStr "Jerry")];
     5%nat := plain [("elephant", VStr "Dumbo")];
     6%nat := Obj (FunctionObject "function answersOne() {}" answersOne) ∅;
     7%nat := plain [("then", VRef 2%nat)];
     8%nat := plain [("cat", VStr "Garfield"); ("dragon", VNull); ("ghost", VStr "")] ]}.

(** An instance configured with a predicate that answers [1]. *)
Definition lenientValidator : ParameterValidator := {| _defaultValidation := VRef 6%nat |}.

(** A predicate that accepts every value. *)
Definition anything (_ : value) : value := VBool true.

(** Objects as [JSON.parse] builds them from text with a key [__proto__],
    which then is an own property like any other; a function to write to. *)
Definition attic : store :=
  {[ 0%nat := plain [("__proto__", VNum 5); ("cat", VStr "Garfield")];
     1%nat := Obj (FunctionObject "function anything() { return true; }" anything) ∅;
     2%nat := plain [("__proto__", VStr "")];
     3%nat := plain [("elephant", VStr "Dumbo")];
     4%nat := Obj (FunctionObject "function handler() {}" anything) ∅;
     5%nat := plain [("name", VStr "Rex")] ]}.

Definition error_of (r : store * outcome value) : option error :=
  match r with
  | (_, Throw e) => Some e
  | _ => None
  end.

(** The default predicate of [self] answers with a truthy value on [v]. *)
Definition accepts (self : ParameterValidator) (σ : store) (v : value) : Prop :=
  ∃ r, invoke σ (defaultValidation self) v = Return r ∧ truthy r = true.

(** The own property [k] of a local object becomes [v]. *)
Definition own_set (k : string) (v : value) (l : list (string * value))
    : list (string * value) :=
  match array_index k with
  | Some i => index_set i k v l
  | None => alist_set k v l
  end.

(** The message of line 233-237 for a group. *)
Definition group_message (paramNames : list string) : string :=
  "One of the following parameters must be included: "
  +:+ String.concat ", " (map (λ n, "'" +:+ n +:+ "'") paramNames) +:+ ".".

(** [paramsProvided] is a primitive or an object that the store holds. *)
Definition in_store (σ : store) (v : value) : Prop :=
  match v with VRef l => is_Some (σ !! l) | _ => True end.

(** What [paramsProvided] reads at a name, when the read is within range. *)
Definition reads (σ : store) (p : value) (paramName : string) : value :=
  match get σ p paramName with Return v => v | _ => VUndefined end.

Definition is_missing (σ : store) (p : value) (paramName : string) : bool :=
  bool_decide (reads σ p paramName = VUndefined).

(** A required name that [validate] handles by reading an own property or
    [undefined] and by an ordinary write under the prefix. *)
Definition ordinary_name (σ : store) (p : value) (prefix paramName : string) : Prop :=
  paramName ≠ "" ∧ paramName ≠ "__proto__" ∧ prefix +:+ paramName ≠ "__proto__"
  ∧ ∃ v, get σ p paramName = Return v.

(** The table of a new object after the writes for the names present. *)
Definition present_table (σ : store) (p : value) (prefix : string) (names : list string)
    (m : gmap string value) : gmap string value :=
  fold_left (λ m n, <[prefix +:+ n := reads σ p n]> m)
            (List.filter (λ n, negb (is_missing σ p n)) names) m.

(** ** Strings *)

Lemma append_cons (x : Ascii.ascii) (a b : string) : String x a +:+ b = String x (a +:+ b).
Proof. reflexivity. Qed.

Lemma append_assoc (a b c : string) : (a +:+ b) +:+ c = a +:+ (b +:+ c).
Proof. induction a as [|x a IH]; [done | by rewrite !append_cons, IH]. Qed.

Lemma length_append (a b : string) :
  String.length (a +:+ b) = (String.length a + String.length b)%nat.
Proof. induction a as [|x a IH]; [done | by rewrite append_cons; simpl; rewrite IH]. Qed.

Lemma substring_append (a b : string) :
  String.substring 0 (String.length a) (a +:+ b) = a.
Proof.
  induction a as [|x a IH].
  - by destruct b.
  - rewrite append_cons. simpl. by rewrite IH.
Qed.

Lemma slice_end_append (a b : string) : slice_end (a +:+ b) (String.length b) = a.
Proof.
  unfold slice_end. rewrite length_append.
  replace (String.length a + String.length b - String.length b)%nat
    with (String.length a) by lia.
  apply substring_append.
Qed.

(** A loop [msg += f(x) + sep] builds the [sep]-joined string, with one
    separator too many at the end. *)
Lemma fold_left_append_sep {A} (f : A → string) (sep : string) (l : list A) (acc : string) :
  l ≠ [] →
  fold_left (λ msg x, msg +:+ f x +:+ sep) l acc
  = acc +:+ String.concat sep (map f l) +:+ sep.
Proof.
  revert acc. induction l as [|x l IH]; intros acc Hne; [done |].
  destruct l as [|y l].
  - simpl. done.
  - change (fold_left _ (x :: y :: l) acc)
      with (fold_left (λ msg x, msg +:+ f x +:+ sep) (y :: l) (acc +:+ f x +:+ sep)).
    rewrite IH by done.
    change (String.concat sep (map f (x :: y :: l)))
      with (f x +:+ sep +:+ String.concat sep (map f (y :: l))).
    by rewrite !append_assoc.
Qed.

Lemma join_errors (errors : list string) :
  errors ≠ [] →
  slice_end (fold_left (λ msg error, msg +:+ error +:+ " ") errors "") 1
  = String.concat " " errors.
Proof.
  intros Hne.
  rewrite (fold_left_append_sep (λ e, e) " " errors "" Hne).
  rewrite map_id. simpl.
  apply (slice_end_append _ " ").
Qed.

Lemma logicalOr_message (paramNames : list string) :
  paramNames ≠ [] →
  slice_end (fold_left (λ msg paramName, msg +:+ "'" +:+ paramName +:+ "', ") paramNames
               "One of the following parameters must be included: ") 2 +:+ "."
  = "One of the following parameters must be included: "
    +:+ String.concat ", " (map (λ n, "'" +:+ n +:+ "'") paramNames) +:+ ".".
Proof.
  intros Hne.
  assert (Hf : ∀ l acc,
    fold_left (λ msg paramName, msg +:+ "'" +:+ paramName +:+ "', ") l acc
    = fold_left (λ msg x, msg +:+ (λ n, "'" +:+ n +:+ "'") x +:+ ", ") l acc).
  { induction l as [|x l IH]; intros acc; [done |].
    simpl. rewrite IH. f_equal. by rewrite !append_assoc. }
  rewrite Hf, (fold_left_append_sep (λ n, "'" +:+ n +:+ "'") ", " paramNames _ Hne).
  rewrite <- append_assoc.
  rewrite (slice_end_append _ ", ").
  by rewrite append_assoc.
Qed.

(** ** The store under the writes of a call *)

Lemma kind_of_set_prop σ l k v l' : kind_of (set_prop σ l k v) l' = kind_of σ l'.
Proof.
  unfold set_prop, kind_of at 1. destruct (decide (l = l')) as [->|Hne].
  - by rewrite lookup_insert_eq.
  - by rewrite lookup_insert_ne.
Qed.


Lemma lookup_set_prop_ne σ l k v l' : l' ≠ l → set_prop σ l k v !! l' = σ !! l'.
Proof. intros Hne. unfold set_prop. by rewrite lookup_insert_ne. Qed.

Lemma fresh_loc_unbound (σ : store) : σ !! fresh_loc σ = None.
Proof. unfold fresh_loc. apply (not_elem_of_dom (D := gset loc)). apply is_fresh. Qed.

(** A new empty object changes no kind: an unbound reference already read
    as a plain object. *)
Lemma kind_of_alloc σ l l' : σ !! l = None → kind_of (<[l := empty_object]> σ) l' = kind_of σ l'.
Proof.
  intros Hl. unfold kind_of. destruct (decide (l = l')) as [<-|Hne].
  - by rewrite lookup_insert_eq, Hl.
  - by rewrite lookup_insert_ne.
Qed.

(** What one assignment to a reference can do to the store: nothing, or
    set one own property. *)
Lemma assign_ref_store l k v σ :
  (assign (VRef l) k v σ).1 = σ ∨ (assign (VRef l) k v σ).1 = set_prop σ l k v.
Proof.
  unfold assign. destruct (String.eqb k "__proto__").
  - destruct (props_of σ l !! k); [by right |]. destruct v; by left.
  - destruct (kind_of σ l); [by right |].
    destruct (bool_decide _); [by left |]. destruct (bool_decide _); [by left | by right].
Qed.

Lemma assign_only_ref t k v σ : (∀ l, t ≠ VRef l) → (assign t k v σ).1 = σ.
Proof.
  intros Hr. destruct t as [| |b|z| |s|l]; simpl; try done.
  - by destruct (String.eqb k "__proto__").
  - by destruct (String.eqb k "__proto__").
  - by destruct (String.eqb k "__proto__").
  - by destruct (Hr l).
Qed.

(** ** The two argument checks *)

Lemma _getExtractedParamsObject_nullish target σ :
  nullish target = true →
  _getExtractedParamsObject target σ
  = (<[fresh_loc σ := empty_object]> σ, Return (VRef (fresh_loc σ))).
Proof. by destruct target. Qed.

Lemma _getExtractedParamsObject_ref l σ :
  _getExtractedParamsObject (VRef l) σ = (σ, Return (VRef l)).
Proof.
  unfold _getExtractedParamsObject. simpl.
  by destruct (kind_of σ l).
Qed.

Lemma _getExtractedParamsObject_primitive target σ :
  nullish target = false → (∀ l, target ≠ VRef l) →
  _getExtractedParamsObject target σ
  = (σ, let? s := to_string σ target in
        Throw (mkError Error_ ("Invalid value of '" +:+ s
                               +:+ "' was provided for the extractedParams parameter."))).
Proof. intros Hn Hr. destruct target; try done. by destruct (Hr l). Qed.

(** The three cases of [_getExtractedParamsObject]. *)
Lemma _getExtractedParamsObject_cases target σ :
  (nullish target = true
   ∧ _getExtractedParamsObject target σ
     = (<[fresh_loc σ := empty_object]> σ, Return (VRef (fresh_loc σ))))
  ∨ (∃ l, target = VRef l ∧ _getExtractedParamsObject target σ = (σ, Return (VRef l)))
  ∨ (nullish target = false ∧ (∀ l, target ≠ VRef l)
     ∧ (_getExtractedParamsObject target σ).1 = σ
     ∧ ∀ t, (_getExtractedParamsObject target σ).2 ≠ Return t).
Proof.
  destruct target as [| |b|z| |s|l].
  - left. by split.
  - left. by split.
  - right. right. split; [done |]. split; [done |]. split; [done |]. by destruct b.
  - right. right. split; [done |]. split; [done |]. split; [done |].
    intros t. unfold _getExtractedParamsObject. simpl. by destruct (safe_integer z).
  - right. right. by split; [| split; [| split]].
  - right. right. by split; [| split; [| split]].
  - right. left. exists l. split; [done | apply _getExtractedParamsObject_ref].
Qed.

Lemma _getExtractedParamsObject_reference target σ σ1 t :
  _getExtractedParamsObject target σ = (σ1, Return t) → ∃ lt, t = VRef lt.
Proof.
  destruct (_getExtractedParamsObject_cases target σ)
    as [[_ ->]|[(l & -> & ->)|(_ & _ & _ & Hno)]].
  - intros [= _ <-]. by eexists.
  - intros [= _ <-]. by eexists.
  - intros H. rewrite H in Hno. by destruct (Hno t).
Qed.

Lemma _getExtractedParamsObject_kinds target σ :
  same_kinds σ (_getExtractedParamsObject target σ).1.
Proof.
  destruct (_getExtractedParamsObject_cases target σ)
    as [[_ ->]|[(l & -> & ->)|(_ & _ & -> & _)]]; try done.
  intros l. apply kind_of_alloc, fresh_loc_unbound.
Qed.

Lemma typeof_same_kinds σ σ' v : same_kinds σ σ' → typeof σ' v = typeof σ v.
Proof. intros Hk. destruct v; simpl; try done. by rewrite Hk. Qed.

(** The class in effect does not depend on what the output object is. *)
Lemma _getValidationErrorSubclass_kinds σ σ' opts :
  same_kinds σ σ' →
  _getValidationErrorSubclass σ' opts = _getValidationErrorSubclass σ opts.
Proof.
  intros Hk. unfold _getValidationErrorSubclass.
  destruct (errorClass opts) as [c|v]; [done |].
  rewrite (typeof_same_kinds σ σ' v Hk). by destruct v.
Qed.

Lemma _getValidationErrorSubclass_store σ σ1 target o opts :
  _getExtractedParamsObject target σ = (σ1, o) →
  _getValidationErrorSubclass σ1 opts = _getValidationErrorSubclass σ opts.
Proof.
  intros Ht. apply _getValidationErrorSubclass_kinds.
  pose proof (_getExtractedParamsObject_kinds target σ) as Hk. by rewrite Ht in Hk.
Qed.

(** A class is returned whatever the store holds. *)
Lemma _getValidationErrorSubclass_Return σ σ' opts cls :
  _getValidationErrorSubclass σ opts = Return cls →
  _getValidationErrorSubclass σ' opts = Return cls.
Proof.
  unfold _getValidationErrorSubclass.
  destruct (errorClass opts) as [c|v]; [done |].
  destruct v; simpl; done.
Qed.

(** ** [validate] after its argument checks *)

(** Once target, class, values object, rule list and prefix are accepted,
    [validate] is its loop followed by lines 118-129. *)
Lemma validate_conclude self σ p reqs target opts σ1 t cls prefix :
  _getExtractedParamsObject target σ = (σ1, Return t) →
  _getValidationErrorSubclass σ opts = Return cls →
  truthy p = true →
  effective_prefix opts = VStr prefix →
  validate self p (AnArray reqs) target opts σ
  = conclude cls t (validate_loop self p t prefix reqs [] σ1).
Proof.
  intros Ht Hc Hp Hpre. unfold validate, bind, reading. rewrite Ht.
  rewrite (_getValidationErrorSubclass_Return σ σ1 opts cls Hc), Hp. simpl.
  fold (effective_prefix opts). rewrite Hpre.
  unfold conclude.
  destruct (validate_loop self p t prefix reqs [] σ1) as [σ2 [errs|e|]]; simpl; try done.
  destruct errs as [|m errs]; [done |].
  cbn [length Nat.eqb negb]. unfold raise. by rewrite (join_errors (m :: errs)).
Qed.

Lemma validate_invalid_target self σ p reqs target opts s :
  nullish target = false → (∀ l, target ≠ VRef l) →
  to_string σ target = Return s →
  validate self p reqs target opts σ
  = (σ, Throw (mkError Error_
                 ("Invalid value of '" +:+ s
                  +:+ "' was provided for the extractedParams parameter."))).
Proof.
  intros Hn Hr Hs. unfold validate, bind.
  by rewrite (_getExtractedParamsObject_primitive target σ Hn Hr), Hs.
Qed.

Lemma validate_invalid_class self σ p reqs target opts σ1 t e :
  _getExtractedParamsObject target σ = (σ1, Return t) →
  _getValidationErrorSubclass σ opts = Throw e →
  validate self p reqs target opts σ = (σ1, Throw e).
Proof.
  intros Ht Hc. unfold validate, bind, reading. rewrite Ht.
  by rewrite (_getValidationErrorSubclass_store σ σ1 target _ opts Ht), Hc.
Qed.

Lemma validate_missing_params self σ p reqs target opts σ1 t cls :
  _getExtractedParamsObject target σ = (σ1, Return t) →
  _getValidationErrorSubclass σ opts = Return cls →
  truthy p = false →
  validate self p reqs target opts σ
  = (σ1, Throw (mkError cls "A params object is required.")).
Proof.
  intros Ht Hc Hp. unfold validate, bind, reading. rewrite Ht.
  by rewrite (_getValidationErrorSubclass_Return σ σ1 opts cls Hc), Hp.
Qed.

Lemma validate_not_array self σ p target opts σ1 t cls :
  _getExtractedParamsObject target σ = (σ1, Return t) →
  _getValidationErrorSubclass σ opts = Return cls →
  truthy p = true →
  validate self p NotAnArray target opts σ
  = (σ1, Throw (mkError Error_ "paramRequirements must be an array.")).
Proof.
  intros Ht Hc Hp. unfold validate, bind, reading. rewrite Ht.
  by rewrite (_getValidationErrorSubclass_Return σ σ1 opts cls Hc), Hp.
Qed.

Lemma validate_invalid_prefix self σ p reqs target opts σ1 t cls :
  _getExtractedParamsObject target σ = (σ1, Return t) →
  _getValidationErrorSubclass σ opts = Return cls →
  truthy p = true →
  (∀ s, effective_prefix opts ≠ VStr s) →
  validate self p (AnArray reqs) target opts σ
  = (σ1, Throw (mkError Error_ "addPrefix option must be a string if provided.")).
Proof.
  intros Ht Hc Hp Hpre. unfold validate, bind, reading. rewrite Ht.
  rewrite (_getValidationErrorSubclass_Return σ σ1 opts cls Hc), Hp. simpl.
  fold (effective_prefix opts).
  destruct (effective_prefix opts) as [| | | | |s|] eqn:He; try done.
  by destruct (Hpre s).
Qed.

(** ** The loop over the rules *)

Lemma add_errors_app errs1 errs2 r :
  add_errors errs1 (add_errors errs2 r) = add_errors (errs1 ++ errs2) r.
Proof. destruct r as [σ [es|e|]]; unfold add_errors; simpl; try done. by rewrite app_assoc. Qed.

(** A rule is evaluated in the same way whatever has been collected before:
    the messages only go in front. *)
Lemma entries_loop_errors p t prefix entries errs σ :
  entries_loop p t prefix entries errs σ
  = add_errors errs (entries_loop p t prefix entries [] σ).
Proof.
  revert errs σ. induction entries as [|[n f] entries IH]; intros errs σ.
  - unfold add_errors. simpl. by rewrite app_nil_r.
  - simpl. unfold bind, reading.
    destruct (_executeValidationFunction σ p n (Supplied f)) as [r|e|]; try done.
    destruct (_assignProperties t (Result.params r) prefix σ) as [σ' [[]|e|]]; try done.
    rewrite (IH (errs ++ Result.errors r)), (IH ([] ++ Result.errors r)).
    by rewrite add_errors_app.
Qed.

Lemma validate_requirement_errors self p t prefix r errs σ :
  validate_requirement self p t prefix r errs σ
  = add_errors errs (validate_requirement self p t prefix r [] σ).
Proof.
  assert (Hret : ∀ σ', (σ', Return errs) = add_errors errs (σ', Return []))
    by (intros σ'; unfold add_errors; simpl; by rewrite app_nil_r).
  destruct r as [names|entries|n|]; unfold validate_requirement.
  - destruct (negb (Nat.eqb (length names) 0)); [| apply Hret].
    unfold bind, reading, ret.
    destruct (_performLogicalOrParamValidation self σ p names) as [r|e|]; try done.
    destruct (_assignProperties t (Result.params r) prefix σ) as [σ' [[]|e|]]; done.
  - apply entries_loop_errors.
  - destruct (truthy (VStr n)); [| apply Hret].
    unfold bind, reading, ret.
    destruct (_executeValidationFunction σ p n (defaultValidation self)) as [r|e|]; try done.
    destruct (_assignProperties t (Result.params r) prefix σ) as [σ' [[]|e|]]; done.
  - apply Hret.
Qed.

Lemma validate_loop_errors self p t prefix reqs errs σ :
  validate_loop self p t prefix reqs errs σ
  = add_errors errs (validate_loop self p t prefix reqs [] σ).
Proof.
  revert errs σ. induction reqs as [|r reqs IH]; intros errs σ.
  - unfold add_errors. simpl. by rewrite app_nil_r.
  - simpl. unfold bind.
    rewrite (validate_requirement_errors self p t prefix r errs σ).
    destruct (validate_requirement self p t prefix r [] σ) as [σ' [errs'|e|]]; try done.
    simpl. rewrite (IH (errs ++ errs')), (IH errs'). by rewrite add_errors_app.
Qed.

Lemma validate_loop_app self p t prefix reqs1 reqs2 errs σ :
  validate_loop self p t prefix (reqs1 ++ reqs2) errs σ
  = match validate_loop self p t prefix reqs1 errs σ with
    | (σ', Return errs') => validate_loop self p t prefix reqs2 errs' σ'
    | (σ', Throw e) => (σ', Throw e)
    | (σ', Beyond) => (σ', Beyond)
    end.
Proof.
  revert errs σ. induction reqs1 as [|r reqs1 IH]; intros errs σ; [done |].
  simpl. unfold bind.
  destruct (validate_requirement self p t prefix r errs σ) as [σ' [errs'|e|]];
    [apply IH | done | done].
Qed.

Lemma entries_loop_app p t prefix entries1 entries2 errs σ :
  entries_loop p t prefix (entries1 ++ entries2) errs σ
  = match entries_loop p t prefix entries1 errs σ with
    | (σ', Return errs') => entries_loop p t prefix entries2 errs' σ'
    | (σ', Throw e) => (σ', Throw e)
    | (σ', Beyond) => (σ', Beyond)
    end.
Proof.
  revert errs σ. induction entries1 as [|[n f] entries1 IH]; intros errs σ; [done |].
  simpl. unfold bind, reading.
  destruct (_executeValidationFunction σ p n (Supplied f)) as [r|e|]; try done.
  destruct (_assignProperties t (Result.params r) prefix σ) as [σ' [[]|e|]];
    [apply IH | done | done].
Qed.

(** ** What holds of the store all along the loop *)

Section LoopInvariant.
Variables (self : ParameterValidator) (p t : value) (prefix : string).
Variable R : store → store → Prop.
Hypothesis R_refl : ∀ σ, R σ σ.
Hypothesis R_trans : ∀ σ1 σ2 σ3, R σ1 σ2 → R σ2 σ3 → R σ1 σ3.
Hypothesis R_assign : ∀ k v σ, R σ (assign t (prefix +:+ k) v σ).1.

Lemma _assignProperties_invariant ps σ : R σ (_assignProperties t ps prefix σ).1.
Proof.
  revert σ. induction ps as [|[k v] ps IH]; intros σ; [apply R_refl |].
  simpl. unfold bind. pose proof (R_assign k v σ) as Ha.
  destruct (assign t (prefix +:+ k) v σ) as [σ' [[]|e|]]; simpl in *; try done.
  eapply R_trans; [exact Ha | apply IH].
Qed.

Lemma step_invariant (c : store → outcome validation_result)
    (k : list string → M (list string)) errs σ :
  (∀ errs' σ', R σ' (k errs' σ').1) →
  R σ ((let! validationResult := reading c in
        let! _ := _assignProperties t (Result.params validationResult) prefix in
        k (errs ++ Result.errors validationResult)) σ).1.
Proof.
  intros Hk. unfold bind, reading.
  destruct (c σ) as [r|e|]; simpl; try apply R_refl.
  pose proof (_assignProperties_invariant (Result.params r) σ) as Ha.
  destruct (_assignProperties t (Result.params r) prefix σ) as [σ' [[]|e|]];
    simpl in *; try done.
  eapply R_trans; [exact Ha | apply Hk].
Qed.

Lemma entries_loop_invariant entries errs σ :
  R σ (entries_loop p t prefix entries errs σ).1.
Proof.
  revert errs σ. induction entries as [|[n f] entries IH]; intros errs σ; [apply R_refl |].
  apply (step_invariant (λ σ, _executeValidationFunction σ p n (Supplied f))
           (entries_loop p t prefix entries)).
  intros errs' σ'. apply IH.
Qed.

Lemma validate_requirement_invariant r errs σ :
  R σ (validate_requirement self p t prefix r errs σ).1.
Proof.
  destruct r as [names|entries|n|]; unfold validate_requirement.
  - destruct (Nat.eqb (length names) 0); [apply R_refl |].
    apply (step_invariant (λ σ, _performLogicalOrParamValidation self σ p names) ret).
    intros errs' σ'. apply R_refl.
  - apply entries_loop_invariant.
  - destruct (truthy (VStr n)); [| apply R_refl].
    apply (step_invariant
             (λ σ, _executeValidationFunction σ p n (defaultValidation self)) ret).
    intros errs' σ'. apply R_refl.
  - apply R_refl.
Qed.

Lemma validate_loop_invariant reqs errs σ :
  R σ (validate_loop self p t prefix reqs errs σ).1.
Proof.
  revert errs σ. induction reqs as [|r reqs IH]; intros errs σ; [apply R_refl |].
  simpl. unfold bind.
  pose proof (validate_requirement_invariant r errs σ) as Hr.
  destruct (validate_requirement self p t prefix r errs σ) as [σ' [errs'|e|]];
    simpl in *; try done.
  eapply R_trans; [exact Hr | apply IH].
Qed.
End LoopInvariant.

(** After the argument checks the store of [validate] is the one its loop
    leaves. *)
Lemma validate_store self p rs target opts σ σ1 t :
  _getExtractedParamsObject target σ = (σ1, Return t) →
  (validate self p rs target opts σ).1 = σ1
  ∨ ∃ reqs prefix, rs = AnArray reqs ∧ effective_prefix opts = VStr prefix
      ∧ (validate self p rs target opts σ).1
        = (validate_loop self p t prefix reqs [] σ1).1.
Proof.
  intros Ht. unfold validate, bind, reading. rewrite Ht.
  destruct (_getValidationErrorSubclass σ1 opts) as [cls|e|]; [| by left | by left].
  destruct (negb (truthy p)); [by left |].
  destruct rs as [reqs|]; [| by left].
  fold (effective_prefix opts).
  destruct (effective_prefix opts) as [| | | | |prefix|] eqn:Hpre; try by left.
  right. exists reqs, prefix. split; [done |]. split; [done |].
  destruct (validate_loop self p t prefix reqs [] σ1) as [σ2 [errs|e|]]; simpl; try done.
  by destruct errs.
Qed.

Lemma validate_returns self p rs target opts σ σ1 t v :
  _getExtractedParamsObject target σ = (σ1, Return t) →
  (validate self p rs target opts σ).2 = Return v → v = t.
Proof.
  intros Ht. unfold validate, bind, reading. rewrite Ht.
  destruct (_getValidationErrorSubclass σ1 opts) as [cls|e|]; try done.
  destruct (negb (truthy p)); [done |].
  destruct rs as [reqs|]; [| done].
  destruct (if truthy (addPrefix opts) then addPrefix opts else VStr "")
    as [| | | | |prefix|]; try done.
  destruct (validate_loop self p t prefix reqs [] σ1) as [σ2 [errs|e|]]; simpl; try done.
  destruct errs; simpl; [| done]. by intros [= <-].
Qed.

(** A relation that every assignment to the output object respects holds
    between the store that the argument checks leave and the store at the
    end of the call. *)
Lemma validate_invariant (R : store → store → Prop) self p rs target opts σ σ1 lt :
  (∀ σ, R σ σ) →
  (∀ σa σb σc, R σa σb → R σb σc → R σa σc) →
  (∀ prefix, effective_prefix opts = VStr prefix →
     ∀ k v σ, R σ (assign (VRef lt) (prefix +:+ k) v σ).1) →
  _getExtractedParamsObject target σ = (σ1, Return (VRef lt)) →
  R σ1 (validate self p rs target opts σ).1.
Proof.
  intros Hrefl Htrans Hassign Ht.
  destruct (validate_store self p rs target opts σ σ1 (VRef lt) Ht)
    as [-> | (reqs & prefix & _ & Hpre & ->)]; [apply Hrefl |].
  apply (validate_loop_invariant self p (VRef lt) prefix R Hrefl Htrans (Hassign prefix Hpre)).
Qed.

(** ** Only the output object is written *)

Lemma only_writes_refl lt σ : only_writes lt σ σ.
Proof. by split. Qed.

Lemma only_writes_trans lt σ1 σ2 σ3 :
  only_writes lt σ1 σ2 → only_writes lt σ2 σ3 → only_writes lt σ1 σ3.
Proof.
  intros [H12 K12] [H23 K23]. split; [| congruence].
  intros l Hne. by rewrite H23, H12.
Qed.

Lemma only_writes_assign lt k v σ : only_writes lt σ (assign (VRef lt) k v σ).1.
Proof.
  destruct (assign_ref_store lt k v σ) as [-> | ->]; [apply only_writes_refl |].
  split; [intros l Hne; by apply lookup_set_prop_ne | apply kind_of_set_prop].
Qed.

(** Whatever the arguments, a call that got its output object at [lt] writes
    nothing but the table of that object, and returns a reference to it if
    it returns. *)
Lemma validate_only_writes self p rs target opts σ σ1 lt :
  _getExtractedParamsObject target σ = (σ1, Return (VRef lt)) →
  only_writes lt σ1 (validate self p rs target opts σ).1
  ∧ ∀ v, (validate self p rs target opts σ).2 = Return v → v = VRef lt.
Proof.
  intros Ht. split.
  - apply (validate_invariant (only_writes lt) self p rs target opts σ σ1 lt);
      [apply only_writes_refl | apply only_writes_trans | | done].
    intros prefix _ k v σ'. apply only_writes_assign.
  - intros v. apply (validate_returns self p rs target opts σ σ1 (VRef lt) v Ht).
Qed.

Lemma store_grows_assign lt k v σ : store_grows σ (assign (VRef lt) k v σ).1.
Proof.
  destruct (assign_ref_store lt k v σ) as [-> | ->]; [by intros l Hl |].
  intros l Hl. unfold set_prop. destruct (decide (l = lt)) as [->|Hne].
  - rewrite lookup_insert_eq. by eexists.
  - by rewrite lookup_insert_ne.
Qed.

(** Whatever the arguments, the object that a call works on is still in
    the store when the call ends. *)
Lemma validate_store_grows self p rs target opts σ σ1 lt :
  _getExtractedParamsObject target σ = (σ1, Return (VRef lt)) →
  store_grows σ1 (validate self p rs target opts σ).1.
Proof.
  intros Ht.
  apply (validate_invariant store_grows self p rs target opts σ σ1 lt); [| | | done].
  - by intros σ' l Hl.
  - intros σa σb σc Hab Hbc l Hl. by apply Hbc, Hab.
  - intros prefix _ k v σ'. apply store_grows_assign.
Qed.


Lemma same_kinds_assign t k v σ : same_kinds σ (assign t k v σ).1.
Proof.
  destruct t as [| |b|z| |s|l]; try (by rewrite assign_only_ref).
  destruct (assign_ref_store l k v σ) as [-> | ->]; [done |].
  intros l'. apply kind_of_set_prop.
Qed.

Lemma validate_loop_kinds self p t prefix reqs errs σ :
  same_kinds σ (validate_loop self p t prefix reqs errs σ).1.
Proof.
  apply (validate_loop_invariant self p t prefix same_kinds).
  - done.
  - intros σa σb σc Hab Hbc l. by rewrite Hbc, Hab.
  - intros k v σ'. apply same_kinds_assign.
Qed.

Lemma entries_loop_kinds p t prefix entries errs σ :
  same_kinds σ (entries_loop p t prefix entries errs σ).1.
Proof.
  apply (entries_loop_invariant p t prefix same_kinds).
  - done.
  - intros σa σb σc Hab Hbc l. by rewrite Hbc, Hab.
  - intros k v σ'. apply same_kinds_assign.
Qed.

(** ** The classes of the errors raised *)










Section Thrown.
Variables (self : ParameterValidator) (p t : value) (prefix : string).




End Thrown.



(** ** No error of the loop reads like the missing-object error *)







Section Unlike.
Variables (self : ParameterValidator) (p t : value) (prefix : string).




End Unlike.



(** ** Descriptors without effect *)

Lemma validate_requirement_skips self p t prefix r errs σ :
  skips r = true →
  validate_requirement self p t prefix r errs σ = (σ, Return errs).
Proof.
  destruct r as [[|n names]|[|e entries]|s|]; try done.
  unfold skips, validate_requirement. intros Hs. apply negb_true_iff in Hs.
  by rewrite Hs.
Qed.

Lemma validate_loop_filter_skips self p t prefix reqs errs σ :
  validate_loop self p t prefix (List.filter (λ r, negb (skips r)) reqs) errs σ
  = validate_loop self p t prefix reqs errs σ.
Proof.
  revert errs σ. induction reqs as [|r reqs IH]; intros errs σ; [done |].
  simpl. destruct (skips r) eqn:Hs; simpl.
  - unfold bind. rewrite (validate_requirement_skips self p t prefix r errs σ Hs). apply IH.
  - unfold bind.
    destruct (validate_requirement self p t prefix r errs σ) as [σ' [errs'|e|]];
      [apply IH | done | done].
Qed.

(** ** Errors raised inside the loop *)

Lemma _executeValidationFunction_not_callable σ p n f :
  callee_type σ f ≠ TFunction →
  _executeValidationFunction σ p n f = Throw (mkError Error_ (not_a_function_message n)).
Proof.
  intros Hf. unfold _executeValidationFunction. by rewrite bool_decide_eq_false_2.
Qed.

(** The predicate of an entry is not a function: the rules and entries
    before it have run, the rest is never looked at. *)
Lemma validate_not_callable self σ p target opts σ1 t cls prefix
    before entries1 n f entries2 after σ2 errors σ3 errors' :
  _getExtractedParamsObject target σ = (σ1, Return t) →
  _getValidationErrorSubclass σ opts = Return cls →
  truthy p = true →
  effective_prefix opts = VStr prefix →
  validate_loop self p t prefix before [] σ1 = (σ2, Return errors) →
  entries_loop p t prefix entries1 errors σ2 = (σ3, Return errors') →
  typeof σ f ≠ TFunction →
  validate self p (AnArray (before ++ ReqObject (entries1 ++ (n, f) :: entries2) :: after))
    target opts σ
  = (σ3, Throw (mkError Error_ (not_a_function_message n))).
Proof.
  intros Ht Hc Hp Hpre Hbefore Hentries Hf.
  rewrite (validate_conclude self σ p _ target opts σ1 t cls prefix Ht Hc Hp Hpre).
  rewrite validate_loop_app, Hbefore.
  cbn [validate_loop validate_requirement]. unfold bind at 1.
  rewrite entries_loop_app, Hentries.
  cbn [entries_loop]. unfold bind at 1. unfold reading.
  rewrite _executeValidationFunction_not_callable; [done |].
  simpl.
  pose proof (_getExtractedParamsObject_kinds target σ) as K1. rewrite Ht in K1.
  pose proof (validate_loop_kinds self p t prefix before [] σ1) as K2. rewrite Hbefore in K2.
  pose proof (entries_loop_kinds p t prefix entries1 errors σ2) as K3. rewrite Hentries in K3.
  simpl in K1, K2, K3.
  by rewrite (typeof_same_kinds σ2 σ3 f K3), (typeof_same_kinds σ1 σ2 f K2),
    (typeof_same_kinds σ σ1 f K1).
Qed.

Lemma non_validation_kind e : plain_class e → instanceof e ParameterValidationError_ = false.
Proof. unfold instanceof. by intros [-> | ->]. Qed.

(** ** The claims *)

(** C1.  The values object [{"__proto__": 5, "cat": "Garfield"}], as
    [JSON.parse] builds it, has the parameter [__proto__], and the value
    satisfies the default predicate; yet [validate] with the rule
    ['__proto__'] returns a new object that holds no entry: the assignment
    of line 263 meets the [__proto__] accessor of the method's [{}]. *)
Theorem validate_loses_proto_parameter :
  get attic (VRef 0%nat) "__proto__" = Return (VNum 5)
  ∧ invoke attic (defaultValidation parameterValidator) (VNum 5) = Return (VBool true)
  ∧ validate parameterValidator (VRef 0%nat) (AnArray [ReqString "__proto__"])
      VUndefined no_options attic
    = (<[fresh_loc attic := empty_object]> attic, Return (VRef (fresh_loc attic))).
Proof. repeat split; vm_compute; reflexivity. Qed.

(** C2 (amended).  In a call that has passed the argument checks, the rules
    that follow a part of the list that ran to its end are evaluated as on
    a run of their own, whatever messages that part has collected, and their
    messages come after them in rule order; when the whole list has run to
    its end with one or more messages, [validate] raises one error of the
    class in effect whose message joins them with single spaces; an error
    thrown while a rule is evaluated ends the call as it is. *)
Theorem validate_aggregates_failures self σ p reqs target opts σ1 t cls prefix :
  _getExtractedParamsObject target σ = (σ1, Return t) →
  _getValidationErrorSubclass σ opts = Return cls →
  truthy p = true →
  effective_prefix opts = VStr prefix →
  (∀ reqs1 reqs2 σ2 errors1,
     reqs = reqs1 ++ reqs2 →
     validate_loop self p t prefix reqs1 [] σ1 = (σ2, Return errors1) →
     validate_loop self p t prefix reqs [] σ1
     = add_errors errors1 (validate_loop self p t prefix reqs2 [] σ2))
  ∧ (∀ σ2 errors,
       validate_loop self p t prefix reqs [] σ1 = (σ2, Return errors) →
       errors ≠ [] →
       validate self p (AnArray reqs) target opts σ
       = (σ2, Throw (mkError cls (String.concat " " errors))))
  ∧ (∀ σ2 e,
       validate_loop self p t prefix reqs [] σ1 = (σ2, Throw e) →
       validate self p (AnArray reqs) target opts σ = (σ2, Throw e)).
Proof.
  intros Ht Hc Hp Hpre. split; [| split].
  - intros reqs1 reqs2 σ2 errors1 -> H1.
    rewrite validate_loop_app, H1. apply validate_loop_errors.
  - intros σ2 errors Hl Hne.
    rewrite (validate_conclude self σ p reqs target opts σ1 t cls prefix Ht Hc Hp Hpre), Hl.
    unfold conclude. simpl. by destruct errors.
  - intros σ2 e Hl.
    by rewrite (validate_conclude self σ p reqs target opts σ1 t cls prefix Ht Hc Hp Hpre), Hl.
Qed.

(** C3.  The group ['__proto__'] on the values object
    [{"__proto__": 5, "cat": "Garfield"}]: the parameter is there and
    satisfies the default predicate, yet the rule extracts nothing and
    produces the error of a group without any satisfying parameter. *)
Theorem logical_or_rejects_proto_parameter :
  get attic (VRef 0%nat) "__proto__" = Return (VNum 5)
  ∧ invoke attic (defaultValidation parameterValidator) (VNum 5) = Return (VBool true)
  ∧ _performLogicalOrParamValidation parameterValidator attic (VRef 0%nat) ["__proto__"]
    = Return {| Result.errors :=
                  ["One of the following parameters must be included: '__proto__'."];
                Result.params := [] |}.
Proof. repeat split; vm_compute; reflexivity. Qed.

(** C4.  The entry [{"__proto__": anything}] on the values object
    [{"__proto__": 5, "cat": "Garfield"}]: the predicate returns [true] on
    the value of the parameter, yet the rule extracts nothing. *)
Theorem accepted_proto_parameter_is_not_extracted :
  get attic (VRef 0%nat) "__proto__" = Return (VNum 5)
  ∧ invoke attic (Supplied (VRef 1%nat)) (VNum 5) = Return (VBool true)
  ∧ _executeValidationFunction attic (VRef 0%nat) "__proto__" (Supplied (VRef 1%nat))
    = Return {| Result.errors := []; Result.params := [] |}
  ∧ validate parameterValidator (VRef 0%nat)
      (AnArray [ReqObject [("__proto__", VRef 1%nat)]]) VUndefined no_options attic
    = (<[fresh_loc attic := empty_object]> attic, Return (VRef (fresh_loc attic))).
Proof. repeat split; vm_compute; reflexivity. Qed.

(** C5.  The values object [{"__proto__": ""}]: the empty string passes the
    default predicate, the required-string rule ['__proto__'] succeeds, and
    the object returned does not hold the value. *)
Theorem defined_proto_parameter_is_not_extracted :
  get attic (VRef 2%nat) "__proto__" = Return (VStr "")
  ∧ isDefined (VStr "") = true
  ∧ validate parameterValidator (VRef 2%nat) (AnArray [ReqString "__proto__"])
      VUndefined no_options attic
    = (<[fresh_loc attic := empty_object]> attic, Return (VRef (fresh_loc attic))).
Proof. repeat split; vm_compute; reflexivity. Qed.

(** C6.  An [addPrefix] of [0] is provided and is not a string, and the
    call succeeds as if no prefix had been given: line 83 has replaced the
    value by [''] before line 85 tests its type. *)
Theorem addPrefix_zero_is_accepted :
  typeof zoo (VNum 0) ≠ TString
  ∧ validate parameterValidator (VRef 0%nat) (AnArray [ReqString "cat"]) VUndefined
      {| addPrefix := VNum 0; errorClass := AValue VUndefined |} zoo
    = (<[fresh_loc zoo := Obj PlainObject {["cat" := VStr "Garfield"]}]> zoo,
       Return (VRef (fresh_loc zoo))).
Proof. split; [discriminate | vm_compute; reflexivity]. Qed.

(** C7 (amended).  An output target that is a boolean, a number or a
    string, an error class that is not a class, a rule list that is not an
    array, a truthy prefix that is not a string and a predicate that is not
    a function are each raised as a plain [Error] with the message of their
    line, a [TypeError] when the error class is [null]; none of these is an
    instance of the validation error class.  A missing values object is
    raised with the validation error class in effect, which is
    [ParameterValidationError] itself unless the caller set another. *)
Theorem usage_errors_are_plain_errors self σ p reqs target opts :
  (∀ s, nullish target = false → (∀ l, target ≠ VRef l) →
     to_string σ target = Return s →
     validate self p reqs target opts σ
     = (σ, Throw (mkError Error_
                    ("Invalid value of '" +:+ s
                     +:+ "' was provided for the extractedParams parameter."))))
  ∧ (∀ σ1 t v, _getExtractedParamsObject target σ = (σ1, Return t) →
       errorClass opts = AValue v → nullish v = false →
       validate self p reqs target opts σ
       = (σ1, Throw (mkError Error_
                       ("The errorClass provided was of type " +:+ typeof_name (typeof σ v)
                        +:+ " and was not an Error subclass."))))
  ∧ (∀ σ1 t, _getExtractedParamsObject target σ = (σ1, Return t) →
       errorClass opts = AValue VNull →
       validate self p reqs target opts σ
       = (σ1, Throw (mkError TypeError_
                       "Cannot read properties of null (reading 'prototype')")))
  ∧ (∀ σ1 t cls, _getExtractedParamsObject target σ = (σ1, Return t) →
       _getValidationErrorSubclass σ opts = Return cls →
       truthy p = true → reqs = NotAnArray →
       validate self p reqs target opts σ
       = (σ1, Throw (mkError Error_ "paramRequirements must be an array.")))
  ∧ (∀ σ1 t cls rs, _getExtractedParamsObject target σ = (σ1, Return t) →
       _getValidationErrorSubclass σ opts = Return cls →
       truthy p = true → reqs = AnArray rs →
       truthy (addPrefix opts) = true → (∀ s, addPrefix opts ≠ VStr s) →
       validate self p reqs target opts σ
       = (σ1, Throw (mkError Error_ "addPrefix option must be a string if provided.")))
  ∧ (∀ σ1 t cls prefix before entries1 n f entries2 after σ2 errors σ3 errors',
       _getExtractedParamsObject target σ = (σ1, Return t) →
       _getValidationErrorSubclass σ opts = Return cls →
       truthy p = true →
       reqs = AnArray (before ++ ReqObject (entries1 ++ (n, f) :: entries2) :: after) →
       effective_prefix opts = VStr prefix →
       validate_loop self p t prefix before [] σ1 = (σ2, Return errors) →
       entries_loop p t prefix entries1 errors σ2 = (σ3, Return errors') →
       typeof σ f ≠ TFunction →
       validate self p reqs target opts σ
       = (σ3, Throw (mkError Error_
                       ("A paramRequirement value provided for the parameter " +:+ n
                        +:+ " is not a function."))))
  ∧ (∀ e, eclass e = Error_ ∨ eclass e = TypeError_ →
       instanceof e ParameterValidationError_ = false)
  ∧ (∀ σ1 t cls, _getExtractedParamsObject target σ = (σ1, Return t) →
       _getValidationErrorSubclass σ opts = Return cls →
       truthy p = false →
       validate self p reqs target opts σ
       = (σ1, Throw (mkError cls "A params object is required."))
       ∧ (errorClass opts = AValue VUndefined → cls = ParameterValidationError_)).
Proof.
  split; [| split; [| split; [| split; [| split; [| split; [| split]]]]]].
  - intros s Hn Hr Hs. by apply validate_invalid_target.
  - intros σ1 t v Ht Hv Hn.
    apply (validate_invalid_class self σ p reqs target opts σ1 t _ Ht).
    unfold _getValidationErrorSubclass. rewrite Hv. by destruct v.
  - intros σ1 t Ht Hv.
    apply (validate_invalid_class self σ p reqs target opts σ1 t _ Ht).
    unfold _getValidationErrorSubclass. by rewrite Hv.
  - intros σ1 t cls Ht Hc Hp ->.
    by apply (validate_not_array self σ p target opts σ1 t cls).
  - intros σ1 t cls rs Ht Hc Hp -> Htruthy Hns.
    apply (validate_invalid_prefix self σ p rs target opts σ1 t cls Ht Hc Hp).
    intros s. unfold effective_prefix. rewrite Htruthy. apply Hns.
  - intros σ1 t cls prefix before entries1 n f entries2 after σ2 errors σ3 errors'
      Ht Hc Hp -> Hpre Hbefore Hentries Hf.
    by apply (validate_not_callable self σ p target opts σ1 t cls prefix before entries1 n f
                entries2 after σ2 errors σ3 errors').
  - intros e. apply non_validation_kind.
  - intros σ1 t cls Ht Hc Hp. split.
    + by apply (validate_missing_params self σ p reqs target opts σ1 t cls).
    + intros Hec. revert Hc. unfold _getValidationErrorSubclass. rewrite Hec. congruence.
Qed.

(** C8.  A values object with the parameters [cat] and [__proto__], both
    validated, and an existing output object: [cat] is written into it and
    [__proto__] is not.  And a function as the output object with the
    validated parameter [name]: the write of line 166 throws a [TypeError]
    and nothing is returned. *)
Theorem output_target_misses_entries :
  get attic (VRef 0%nat) "__proto__" = Return (VNum 5)
  ∧ validate parameterValidator (VRef 0%nat)
      (AnArray [ReqString "cat"; ReqString "__proto__"]) (VRef 3%nat) no_options attic
    = (<[3%nat := plain [("elephant", VStr "Dumbo"); ("cat", VStr "Garfield")]]> attic,
       Return (VRef 3%nat))
  ∧ get attic (VRef 5%nat) "name" = Return (VStr "Rex")
  ∧ typeof attic (VRef 4%nat) = TFunction
  ∧ validate parameterValidator (VRef 5%nat) (AnArray [ReqString "name"]) (VRef 4%nat)
      no_options attic
    = (attic,
       Throw (mkError TypeError_
                "Cannot assign to read only property 'name' of function 'function handler() {}'")).
Proof. repeat split; vm_compute; reflexivity. Qed.

(** C9 (amended).  [validateAsync] returns a promise and throws nothing.
    When its job runs, an error thrown by [validate] rejects the promise
    with that same error; a value returned by [validate] fulfils the promise
    with that value when it is not a thenable, and is followed by the
    promise when it is one. *)
Theorem validateAsync_settles self p reqs target opts σ :
  ∃ pr, validateAsync self p reqs target opts σ = (σ, Return pr)
    ∧ ∀ σj σ',
        (∀ v, validate self p reqs target opts σj = (σ', Return v) →
              is_thenable σ' v = false → run_job pr σj = (σ', Fulfilled v))
        ∧ (∀ v, validate self p reqs target opts σj = (σ', Return v) →
                is_thenable σ' v = true → run_job pr σj = (σ', Following v))
        ∧ (∀ e, validate self p reqs target opts σj = (σ', Throw e) →
                run_job pr σj = (σ', Rejected e)).
Proof.
  eexists. split; [reflexivity |].
  intros σj σ'. split; [| split].
  - intros v Hv Hth. simpl. by rewrite Hv, Hth.
  - intros v Hv Hth. simpl. by rewrite Hv, Hth.
  - intros e He. simpl. by rewrite He.
Qed.


(** ** The tests of the repository *)

Example test_not_specified_not_returned :
  ∃ m, validate parameterValidator (VRef 0%nat)
         (AnArray [ReqString "cat"; ReqString "dog"; ReqString "squirrel"])
         VUndefined no_options zoo
       = (<[9%nat := Obj PlainObject m]> zoo, Return (VRef 9%nat))
     ∧ m = list_to_map [("cat", VStr "Garfield"); ("dog", VStr "Jake");
                         ("squirrel", VStr "Rocky")].
Proof. eexists. split; vm_compute; reflexivity. Qed.

Example test_required_missing :
  error_of (validate parameterValidator (VRef 1%nat)
              (AnArray [ReqString "cat"; ReqString "dog"; ReqString "squirrel"])
              VUndefined no_options zoo)
  = Some (mkError ParameterValidationError_
            "Invalid value of 'undefined' was provided for parameter 'squirrel'.").
Proof. vm_compute. reflexivity. Qed.

Example test_logical_or_missing :
  error_of (validate parameterValidator (VRef 1%nat)
              (AnArray [ReqArray ["moose"; "kangaroo"; "mouse"]])
              VUndefined no_options zoo)
  = Some (mkError ParameterValidationError_
            "One of the following parameters must be included: 'moose', 'kangaroo', 'mouse'.").
Proof. vm_compute. reflexivity. Qed.

Example test_combined_failures :
  error_of (validate parameterValidator (VRef 4%nat)
              (AnArray [ReqString "mouse"; ReqString "chicken";
                        ReqArray ["squirrel"; "moose"];
                        ReqObject [("cat", VRef 2%nat)]; ReqObject [("dog", VRef 3%nat)]])
              VUndefined no_options zoo)
  = Some (mkError ParameterValidationError_
            ("Invalid value of 'undefined' was provided for parameter 'chicken'. "
             +:+ "One of the following parameters must be included: 'squirrel', 'moose'. "
             +:+ "Invalid value of 'Sylvester' was provided for parameter 'cat'. "
             +:+ "Invalid value of 'Jake' was provided for parameter 'dog'.")).
Proof. vm_compute. reflexivity. Qed.

Example test_existing_object_with_prefix :
  validate parameterValidator (VRef 0%nat)
    (AnArray [ReqObject [("cat", VRef 2%nat)]; ReqString "dog"; ReqArray ["squirrel"; "moose"]])
    (VRef 5%nat) {| addPrefix := VStr "_"; errorClass := AValue VUndefined |} zoo
  = (<[5%nat := plain [("elephant", VStr "Dumbo"); ("_cat", VStr "Garfield");
                       ("_dog", VStr "Jake"); ("_squirrel", VStr "Rocky")]]> zoo,
     Return (VRef 5%nat)).
Proof. vm_compute. reflexivity. Qed.

(** A truthy primitive in place of the values object is read like one. *)
Example test_number_as_params :
  error_of (validate parameterValidator (VNum 5) (AnArray [ReqString "cat"])
              VUndefined no_options zoo)
  = Some (mkError ParameterValidationError_
            "Invalid value of 'undefined' was provided for parameter 'cat'.").
Proof. vm_compute. reflexivity. Qed.

Example test_string_as_params :
  validate parameterValidator (VStr "abc") (AnArray [ReqString "length"; ReqString "1"])
    VUndefined no_options zoo
  = (<[9%nat := plain [("length", VNum 3); ("1", VStr "b")]]> zoo, Return (VRef 9%nat)).
Proof. vm_compute. reflexivity. Qed.

Example test_prefix_not_a_string :
  error_of (validate parameterValidator (VRef 0%nat)
              (AnArray [ReqString "cat"; ReqString "dog"]) (VRef 5%nat)
              {| addPrefix := VNum 4; errorClass := AValue VUndefined |} zoo)
  = Some (mkError Error_ "addPrefix option must be a string if provided.").
Proof. vm_compute. reflexivity. Qed.

(** A group visits its keys as [for..in] does: array indices first. *)
Example test_group_order :
  _performLogicalOrParamValidation parameterValidator
    (<[9%nat := plain [("b", VNum 1); ("10", VNum 2); ("2", VNum 3)]]> zoo) (VRef 9%nat)
    ["b"; "10"; "2"]
  = Return {| Result.errors := [];
              Result.params := [("2", VNum 3); ("10", VNum 2); ("b", VNum 1)] |}.
Proof. vm_compute. reflexivity. Qed.

(** ** The theorems at concrete calls *)

Lemma validate_aggregates_failures_witness :
  validate parameterValidator (VRef 1%nat)
    (AnArray [ReqString "squirrel"; ReqString "cat"; ReqString "emu"]) VUndefined no_options zoo
  = (<[fresh_loc zoo := plain [("cat", VStr "Garfield")]]> zoo,
     Throw (mkError ParameterValidationError_
              (String.concat " " [undefined_message "squirrel"; undefined_message "emu"]))).
Proof.
  apply (proj1 (proj2
           (validate_aggregates_failures parameterValidator zoo (VRef 1%nat)
              [ReqString "squirrel"; ReqString "cat"; ReqString "emu"] VUndefined no_options
              (<[fresh_loc zoo := empty_object]> zoo) (VRef (fresh_loc zoo))
              ParameterValidationError_ "" eq_refl eq_refl eq_refl eq_refl))).
  - vm_compute. reflexivity.
  - discriminate.
Defined.

(** Counterexample to C2 as stated: the first rule fails, the second holds
    a predicate that is not a function, and the call ends there with the
    usage error; the third rule is not evaluated and no aggregate error is
    raised. *)
Lemma usage_error_ends_the_rules :
  _executeValidationFunction zoo (VRef 1%nat) "squirrel" (defaultValidation parameterValidator)
  = Return {| Result.errors := [undefined_message "squirrel"]; Result.params := [] |}
  ∧ validate parameterValidator (VRef 1%nat)
      (AnArray [ReqString "squirrel"; ReqObject [("dog", VNum 5)]; ReqString "emu"])
      VUndefined no_options zoo
    = (<[fresh_loc zoo := empty_object]> zoo,
       Throw (mkError Error_ (not_a_function_message "dog"))).
Proof. split; vm_compute; reflexivity. Qed.

Lemma usage_errors_are_plain_errors_witness :
  validate parameterValidator (VRef 0%nat)
    (AnArray ([ReqString "cat"] ++ ReqObject ([] ++ [("dog", VNum 5)]) :: []))
    VUndefined no_options zoo
  = (<[fresh_loc zoo := plain [("cat", VStr "Garfield")]]> zoo,
     Throw (mkError Error_
              ("A paramRequirement value provided for the parameter " +:+ "dog"
               +:+ " is not a function."))).
Proof.
  apply (proj1 (proj2 (proj2 (proj2 (proj2 (proj2
           (usage_errors_are_plain_errors parameterValidator zoo (VRef 0%nat)
              (AnArray ([ReqString "cat"] ++ ReqObject ([] ++ [("dog", VNum 5)]) :: []))
              VUndefined no_options))))))
           (<[fresh_loc zoo := empty_object]> zoo) (VRef (fresh_loc zoo))
           ParameterValidationError_ "" [ReqString "cat"] [] "dog" (VNum 5) [] []
           (<[fresh_loc zoo := plain [("cat", VStr "Garfield")]]> zoo) []
           (<[fresh_loc zoo := plain [("cat", VStr "Garfield")]]> zoo) []).
  - reflexivity.
  - reflexivity.
  - reflexivity.
  - reflexivity.
  - reflexivity.
  - vm_compute. reflexivity.
  - reflexivity.
  - discriminate.
Defined.

(** Counterexample to C7 as stated: the missing values object is raised as
    an instance of the validation error class. *)
Lemma missing_params_is_a_validation_error :
  ∃ σ' e, validate parameterValidator VUndefined (AnArray []) VUndefined no_options zoo
          = (σ', Throw e)
        ∧ emessage e = "A params object is required."
        ∧ instanceof e ParameterValidationError_ = true.
Proof. eexists _, _. split; [vm_compute; reflexivity | split; reflexivity]. Qed.

Lemma validateAsync_settles_witness :
  ∃ pr, validateAsync parameterValidator (VRef 1%nat) (AnArray [ReqString "squirrel"])
          VUndefined no_options zoo = (zoo, Return pr)
      ∧ (run_job pr zoo).2
        = Rejected (mkError ParameterValidationError_
                      "Invalid value of 'undefined' was provided for parameter 'squirrel'.").
Proof.
  destruct (validateAsync_settles parameterValidator (VRef 1%nat)
              (AnArray [ReqString "squirrel"]) VUndefined no_options zoo) as (pr & Hpr & Hjob).
  exists pr. split; [exact Hpr |].
  rewrite (proj2 (proj2 (Hjob zoo (<[fresh_loc zoo := empty_object]> zoo)))
             (mkError ParameterValidationError_
                "Invalid value of 'undefined' was provided for parameter 'squirrel'.")).
  - reflexivity.
  - vm_compute. reflexivity.
Defined.

(** Counterexample to C9 as stated: [validate] returns an object whose
    [then] is a function, and the promise is not fulfilled with it. *)
Lemma thenable_result_is_not_fulfilled :
  ∃ σ' v pr,
    validate parameterValidator (VRef 7%nat) (AnArray [ReqString "then"]) VUndefined
      no_options zoo = (σ', Return v)
    ∧ validateAsync parameterValidator (VRef 7%nat) (AnArray [ReqString "then"]) VUndefined
        no_options zoo = (zoo, Return pr)
    ∧ run_job pr zoo = (σ', Following v)
    ∧ run_job pr zoo ≠ (σ', Fulfilled v).
Proof.
  eexists _, _, _. split; [vm_compute; reflexivity |].
  split; [reflexivity |]. split; [vm_compute; reflexivity |].
  vm_compute. discriminate.
Qed.


(** ** Further properties of the class *)

(** *** The constructor, lines 30-39 *)

(** X1.  The constructor returns an instance exactly when no options are
    given or the [defaultValidation] option is [undefined] or a function;
    the instance keeps the option.  In every other case, [null] included,
    it throws a [ParameterValidationError]. *)
Theorem constructor_accepts σ options :
  (∀ self, constructor σ options = Return self ↔
     (options = None ∧ self = parameterValidator)
     ∨ ∃ dv, options = Some dv ∧ (dv = VUndefined ∨ typeof σ dv = TFunction)
             ∧ self = {| _defaultValidation := dv |})
  ∧ (∀ e, constructor σ options = Throw e ↔
       (∃ dv, options = Some dv ∧ dv ≠ VUndefined ∧ typeof σ dv ≠ TFunction)
       ∧ e = mkError ParameterValidationError_
               "The optional defaultValidation parameter provided is not a function.").
Proof.
  destruct options as [dv|]; simpl.
  - destruct (decide (dv = VUndefined)) as [->|Hu].
    + simpl. split.
      * intros self. split.
        -- intros [= <-]. right. exists VUndefined. auto.
        -- intros [[? _]|(dv & [= <-] & _ & ->)]; done.
      * intros e. split; [done |]. by intros [(dv & [= <-] & Hne & _) _].
    + rewrite (bool_decide_eq_false_2 _ Hu). simpl.
      destruct (decide (typeof σ dv = TFunction)) as [Hf|Hf].
      * rewrite (bool_decide_eq_true_2 _ Hf). simpl. split.
        -- intros self. split.
           ++ intros [= <-]. right. exists dv. auto.
           ++ intros [[? _]|(dv' & [= <-] & _ & ->)]; done.
        -- intros e. split; [done |]. by intros [(dv' & [= <-] & _ & Hnf) _].
      * rewrite (bool_decide_eq_false_2 _ Hf). simpl. split.
        -- intros self. split; [done |].
           intros [[? _]|(dv' & [= <-] & [?|?] & _)]; done.
        -- intros e. split.
           ++ intros [= <-]. split; [| done]. by exists dv.
           ++ by intros [_ ->].
  - split.
    + intros self. split.
      * intros [= <-]. by left.
      * intros [[_ ->]|(dv & ? & _)]; done.
    + intros e. split; [done |]. by intros [(dv & ? & _) _].
Qed.

(** *** The default predicate in its two uses, lines 112 and 224-227 *)

Lemma local_set_first n v :
  n ≠ "__proto__" → local_set n v [] = Return [(n, v)].
Proof.
  intros Hn. unfold local_set. rewrite (proj2 (String.eqb_neq n "__proto__") Hn).
  by destruct (array_index n).
Qed.

Lemma invoke_callable σ f v r : invoke σ f v = Return r → callee_type σ f = TFunction.
Proof.
  destruct f as [|f]; simpl; [done |].
  destruct f; try done. simpl. by destruct (kind_of σ l).
Qed.

(** X3.  A configured default predicate that answers with a truthy value
    other than [true] accepts a parameter inside a logical-OR group, which
    tests truthiness, and rejects the same parameter as a required name,
    which tests [=== true]; this for a parameter named otherwise than
    [__proto__] whose value is read as an own property or as [undefined]
    and has its default string form. *)
Theorem default_predicate_two_readings self σ p n v r s :
  get σ p n = Return v →
  invoke σ (defaultValidation self) v = Return r →
  truthy r = true →
  r ≠ VBool true →
  n ≠ "__proto__" →
  to_string σ v = Return s →
  _performLogicalOrParamValidation self σ p [n]
  = Return {| Result.errors := []; Result.params := [(n, v)] |}
  ∧ _executeValidationFunction σ p n (defaultValidation self)
    = Return {| Result.errors :=
                  ["Invalid value of '" +:+ s
                   +:+ "' was provided for parameter '" +:+ n +:+ "'."];
                Result.params := [] |}.
Proof.
  intros Hg Hr Ht Hne Hn Hs. split.
  - unfold _performLogicalOrParamValidation. simpl.
    rewrite Hg. simpl. rewrite Hr. simpl. rewrite Ht.
    by rewrite (local_set_first n v Hn).
  - unfold _executeValidationFunction.
    rewrite (bool_decide_eq_true_2 _ (invoke_callable σ _ v r Hr)). simpl.
    rewrite Hg. simpl. rewrite Hr. simpl.
    rewrite (bool_decide_eq_false_2 _ Hne). by rewrite Hs.
Qed.

(** *** Descriptors without effect, lines 92-115 *)

(** X4.  Empty strings, empty arrays, objects without entries ([null]
    among them) and values of other types in the rule list have no effect:
    taking them out of the list changes neither the result nor the store. *)
Theorem skipped_requirements_have_no_effect self p reqs target opts σ :
  validate self p (AnArray (List.filter (λ r, negb (skips r)) reqs)) target opts σ
  = validate self p (AnArray reqs) target opts σ.
Proof.
  unfold validate, bind, reading.
  destruct (_getExtractedParamsObject target σ) as [σ1 [t|e|]]; try done.
  destruct (_getValidationErrorSubclass σ1 opts) as [cls|e|]; try done.
  destruct (negb (truthy p)); [done |].
  destruct (if truthy (addPrefix opts) then addPrefix opts else VStr "")
    as [| | | | |prefix|]; try done.
  by rewrite validate_loop_filter_skips.
Qed.

(** *** What a call leaves alone, lines 69-130 and 163-191 *)

(** X5.  [validate] changes no object but its output target: the values
    object, the predicate functions and every other object of the caller
    are the same after the call, whether it returns or throws. *)
Theorem other_objects_untouched self p rs target opts σ l :
  is_Some (σ !! l) →
  target ≠ VRef l →
  (validate self p rs target opts σ).1 !! l = σ !! l.
Proof.
  intros Hl Hne.
  destruct (_getExtractedParamsObject_cases target σ)
    as [[_ Ht]|[(lt & -> & Ht)|(_ & _ & Hs & Hno)]].
  - destruct (validate_only_writes self p rs target opts σ _ _ Ht) as [[Hw _] _].
    assert (Hfresh : l ≠ fresh_loc σ).
    { intros ->. rewrite fresh_loc_unbound in Hl. by destruct Hl. }
    by rewrite (Hw l Hfresh), lookup_insert_ne.
  - destruct (validate_only_writes self p rs (VRef lt) opts σ _ _ Ht) as [[Hw _] _].
    apply Hw. congruence.
  - unfold validate, bind.
    destruct (_getExtractedParamsObject target σ) as [σ1 [t|e|]]; simpl in *;
      [by destruct (Hno t) | by subst | by subst].
Qed.

(** X6.  A call without output target returns an object of its own: a
    later call without output target, whatever its arguments, returns a
    different object and leaves the earlier one as it was. *)
Theorem each_call_returns_a_new_object self p rs target opts σ σ1 v
    self' p' rs' target' opts' :
  nullish target = true →
  nullish target' = true →
  validate self p rs target opts σ = (σ1, Return v) →
  (∀ v', (validate self' p' rs' target' opts' σ1).2 = Return v' → v' ≠ v)
  ∧ ∃ l, v = VRef l ∧ is_Some (σ1 !! l)
         ∧ (validate self' p' rs' target' opts' σ1).1 !! l = σ1 !! l.
Proof.
  intros Hn Hn' Hcall.
  pose proof (_getExtractedParamsObject_nullish target σ Hn) as Ht.
  destruct (validate_only_writes self p rs target opts σ _ _ Ht) as [_ Hv].
  pose proof (validate_store_grows self p rs target opts σ _ _ Ht (fresh_loc σ)) as Hg.
  rewrite Hcall in Hv, Hg. simpl in Hv, Hg. specialize (Hv v eq_refl). subst v.
  assert (Hbound : is_Some (σ1 !! fresh_loc σ))
    by (apply Hg; rewrite lookup_insert_eq; by eexists).
  assert (Hdiff : fresh_loc σ ≠ fresh_loc σ1).
  { intros Heq. rewrite Heq, fresh_loc_unbound in Hbound. by destruct Hbound. }
  pose proof (_getExtractedParamsObject_nullish target' σ1 Hn') as Ht'.
  destruct (validate_only_writes self' p' rs' target' opts' σ1 _ _ Ht') as [[Hw _] Hv'].
  split.
  - intros v' Hret. rewrite (Hv' v' Hret). congruence.
  - exists (fresh_loc σ). split; [done |]. split; [done |].
    by rewrite (Hw (fresh_loc σ) Hdiff), lookup_insert_ne.
Qed.

(** *** Rule lists in pieces, lines 91-130 *)

(** X8.  A rule list can be validated in two calls that share the output
    object: when the call with the first part returns [t], the call with
    the whole list does what the call with the second part does on [t] in
    the store that the first call left. *)
Theorem validate_in_two_calls self p reqs1 reqs2 target opts σ σ1 t :
  validate self p (AnArray reqs1) target opts σ = (σ1, Return t) →
  validate self p (AnArray (reqs1 ++ reqs2)) target opts σ
  = validate self p (AnArray reqs2) t opts σ1.
Proof.
  intros H. unfold validate, bind, reading in H |- *.
  destruct (_getExtractedParamsObject target σ) as [σ0 [t0|e|]] eqn:Ht; try done.
  destruct (_getExtractedParamsObject_reference target σ σ0 t0 Ht) as [lt ->].
  destruct (_getValidationErrorSubclass σ0 opts) as [cls|e|] eqn:Hc; try done.
  destruct (truthy p) eqn:Hp; [| done]. cbn [negb] in *. cbv beta iota in *.
  destruct (if truthy (addPrefix opts) then addPrefix opts else VStr "")
    as [| | | | |prefix|] eqn:Hpre; try done.
  rewrite validate_loop_app.
  destruct (validate_loop self p (VRef lt) prefix reqs1 [] σ0) as [σ' [errs|e|]]; try done.
  destruct errs as [|m errs]; [| done]. simpl in H. injection H as -> <-.
  rewrite _getExtractedParamsObject_ref.
  by rewrite (_getValidationErrorSubclass_Return σ0 σ1 opts cls Hc).
Qed.

(** *** The classes of the errors raised, lines 69-130, 177-213 and 254-260 *)


(** *** The keys that are written, lines 163-168 *)


(** *** The two rule methods on ordinary names, lines 221-272 *)

Lemma elem_of_alist_set_inv k0 v0 l k v :
  (k, v) ∈ alist_set k0 v0 l → (k = k0 ∧ v = v0) ∨ (k, v) ∈ l.
Proof.
  induction l as [|[k' v'] l IH]; simpl.
  - rewrite list_elem_of_singleton. intros [= -> ->]. by left.
  - destruct (String.eqb_spec k0 k') as [<-|Hne]; rewrite !elem_of_cons.
    + intros [[= -> ->]|H]; [by left | by right; right].
    + intros [H|H]; [by right; left |].
      destruct (IH H) as [?|?]; [by left | by right; right].
Qed.

Lemma elem_of_alist_set_new k0 v0 l : (k0, v0) ∈ alist_set k0 v0 l.
Proof.
  induction l as [|[k' v'] l IH]; simpl.
  - by apply list_elem_of_singleton.
  - destruct (String.eqb_spec k0 k') as [<-|Hne]; rewrite elem_of_cons; [by left | by right].
Qed.

Lemma elem_of_alist_set_old k0 v0 l k v :
  (k, v) ∈ l → k ≠ k0 ∨ v = v0 → (k, v) ∈ alist_set k0 v0 l.
Proof.
  intros Hin Hkv. induction l as [|[k' v'] l IH]; simpl; [by apply elem_of_nil in Hin |].
  apply elem_of_cons in Hin.
  destruct (String.eqb_spec k0 k') as [<-|Hne]; rewrite elem_of_cons.
  - destruct Hin as [Heq|Hin]; [| by right].
    injection Heq as -> ->.
    destruct Hkv as [? | ->]; [done | by left].
  - destruct Hin as [Hin|Hin]; [by left | right; by apply IH].
Qed.

Lemma elem_of_index_set_inv i k0 v0 l k v :
  (k, v) ∈ index_set i k0 v0 l → (k = k0 ∧ v = v0) ∨ (k, v) ∈ l.
Proof.
  induction l as [|[k' v'] l IH]; simpl.
  - rewrite list_elem_of_singleton. intros [= -> ->]. by left.
  - destruct (String.eqb_spec k0 k') as [<-|Hne].
    + rewrite !elem_of_cons. intros [[= -> ->]|H]; [by left | by right; right].
    + destruct (array_index k') as [j|]; [destruct (i <? j)%N |].
      * rewrite elem_of_cons. intros [[= -> ->]|H]; [by left | by right].
      * rewrite !elem_of_cons. intros [H|H]; [by right; left |].
        destruct (IH H) as [?|?]; [by left | by right; right].
      * rewrite elem_of_cons. intros [[= -> ->]|H]; [by left | by right].
Qed.

Lemma elem_of_index_set_new i k0 v0 l : (k0, v0) ∈ index_set i k0 v0 l.
Proof.
  induction l as [|[k' v'] l IH]; simpl.
  - by apply list_elem_of_singleton.
  - destruct (String.eqb_spec k0 k') as [<-|Hne]; [left |].
    destruct (array_index k') as [j|]; [destruct (i <? j)%N |];
      rewrite elem_of_cons; [by left | by right | by left].
Qed.

Lemma elem_of_index_set_old i k0 v0 l k v :
  (k, v) ∈ l → k ≠ k0 ∨ v = v0 → (k, v) ∈ index_set i k0 v0 l.
Proof.
  intros Hin Hkv. induction l as [|[k' v'] l IH]; simpl; [by apply elem_of_nil in Hin |].
  destruct (String.eqb_spec k0 k') as [<-|Hne].
  - apply elem_of_cons in Hin. rewrite elem_of_cons.
    destruct Hin as [Heq|Hin]; [| by right].
    injection Heq as -> ->.
    destruct Hkv as [? | ->]; [done | by left].
  - destruct (array_index k') as [j|]; [destruct (i <? j)%N |].
    + by right.
    + apply elem_of_cons in Hin. rewrite elem_of_cons.
      destruct Hin as [Hin|Hin]; [by left | right; by apply IH].
    + by right.
Qed.

Lemma elem_of_own_set_inv k0 v0 l k v :
  (k, v) ∈ own_set k0 v0 l → (k = k0 ∧ v = v0) ∨ (k, v) ∈ l.
Proof.
  unfold own_set. destruct (array_index k0);
    [apply elem_of_index_set_inv | apply elem_of_alist_set_inv].
Qed.

Lemma elem_of_own_set_new k0 v0 l : (k0, v0) ∈ own_set k0 v0 l.
Proof.
  unfold own_set. destruct (array_index k0);
    [apply elem_of_index_set_new | apply elem_of_alist_set_new].
Qed.

Lemma elem_of_own_set_old k0 v0 l k v :
  (k, v) ∈ l → k ≠ k0 ∨ v = v0 → (k, v) ∈ own_set k0 v0 l.
Proof.
  unfold own_set. destruct (array_index k0);
    [apply elem_of_index_set_old | apply elem_of_alist_set_old].
Qed.

Lemma local_set_own k v l : k ≠ "__proto__" → local_set k v l = Return (own_set k v l).
Proof.
  intros Hk. unfold local_set, own_set.
  by rewrite (proj2 (String.eqb_neq k "__proto__") Hk).
Qed.

Section LogicalOr.
Variables (self : ParameterValidator) (σ : store) (p : value).

(** What the loop of lines 226-230 leaves in [extractedParams]. *)
Lemma logicalOr_loop_extracts names acc :
  "__proto__" ∉ names →
  (∀ n, n ∈ names →
     ∃ v r, get σ p n = Return v ∧ invoke σ (defaultValidation self) v = Return r) →
  ∃ ps, logicalOr_loop σ (defaultValidation self) p names acc = Return ps
    ∧ (∀ k v, (k, v) ∈ ps →
         (k, v) ∈ acc ∨ (k ∈ names ∧ get σ p k = Return v ∧ accepts self σ v))
    ∧ (∀ k v, (k, v) ∈ acc → get σ p k = Return v → (k, v) ∈ ps)
    ∧ (∀ k v, k ∈ names → get σ p k = Return v → accepts self σ v → (k, v) ∈ ps).
Proof.
  revert acc. induction names as [|n names IH]; intros acc Hproto Hread.
  - exists acc. split; [done |]. split; [by left |]. split; [done |].
    intros k v Hk. by apply elem_of_nil in Hk.
  - apply not_elem_of_cons in Hproto as [Hn Hproto].
    destruct (Hread n) as (v0 & r0 & Hg & Hi); [by left |].
    assert (Hread' : ∀ n', n' ∈ names →
              ∃ v r, get σ p n' = Return v ∧ invoke σ (defaultValidation self) v = Return r)
      by (intros n' Hn'; apply Hread; by right).
    simpl. rewrite Hg. simpl. rewrite Hi. simpl.
    destruct (truthy r0) eqn:Ht.
    + rewrite (local_set_own n v0 acc) by done. simpl.
      destruct (IH (own_set n v0 acc) Hproto Hread') as (ps & -> & Hinv & Hold & Hnew).
      exists ps. split; [done |]. split; [| split].
      * intros k v Hin. destruct (Hinv k v Hin) as [Hacc|(Hk & Hgk & Hak)].
        -- destruct (elem_of_own_set_inv _ _ _ _ _ Hacc) as [[-> ->]|?]; [| by left].
           right. split; [by left |]. split; [done |]. by exists r0.
        -- right. split; [by right | done].
      * intros k v Hin Hgk. apply Hold; [| done].
        apply elem_of_own_set_old; [done |].
        destruct (decide (k = n)) as [->|Hne]; [right; congruence | by left].
      * intros k v Hk Hgk Hak. destruct (decide (k = n)) as [->|Hne].
        -- apply Hold; [| done]. assert (v = v0) as -> by congruence.
           apply elem_of_own_set_new.
        -- apply elem_of_cons in Hk as [?|Hk]; [done |]. by apply Hnew.
    + destruct (IH acc Hproto Hread') as (ps & -> & Hinv & Hold & Hnew).
      exists ps. split; [done |]. split; [| split].
      * intros k v Hin. destruct (Hinv k v Hin) as [Hacc|(Hk & Hgk & Hak)]; [by left |].
        right. split; [by right | done].
      * done.
      * intros k v Hk Hgk Hak. destruct (decide (k = n)) as [->|Hne].
        -- destruct Hak as (r & Hr & Htr). congruence.
        -- apply elem_of_cons in Hk as [?|Hk]; [done |]. by apply Hnew.
Qed.
End LogicalOr.

(** X13.  For a non-empty group that does not name [__proto__], on values
    that are read as own properties or as [undefined] and with a default
    predicate that is a function: the rule extracts exactly the names of
    the group whose value the predicate answers with a truthy value, each
    with its value; it produces no error when there is such a name, and
    otherwise exactly the message that lists all names of the group in
    their order, each in single quotes, separated by a comma and a space. *)
Theorem logical_or_group self σ p names :
  names ≠ [] →
  "__proto__" ∉ names →
  (∀ n, n ∈ names →
     ∃ v r, get σ p n = Return v ∧ invoke σ (defaultValidation self) v = Return r) →
  ∃ res, _performLogicalOrParamValidation self σ p names = Return res
    ∧ (∀ n v, (n, v) ∈ Result.params res ↔
         n ∈ names ∧ get σ p n = Return v ∧ accepts self σ v)
    ∧ ((∃ n v, n ∈ names ∧ get σ p n = Return v ∧ accepts self σ v) →
       Result.errors res = [])
    ∧ ((∀ n v, n ∈ names → get σ p n = Return v → ¬ accepts self σ v) →
       Result.params res = [] ∧ Result.errors res = [group_message names]).
Proof.
  intros Hne Hproto Hread. unfold _performLogicalOrParamValidation.
  destruct (logicalOr_loop_extracts self σ p names [] Hproto Hread)
    as (ps & -> & Hinv & _ & Hnew).
  simpl. rewrite (logicalOr_message names Hne). fold (group_message names).
  eexists. split; [done |]. simpl. split; [| split].
  - intros n v. split.
    + intros Hin. destruct (Hinv n v Hin) as [Hnil|?]; [by apply elem_of_nil in Hnil | done].
    + intros (Hn & Hg & Ha). by apply Hnew.
  - intros (n & v & Hn & Hg & Ha). pose proof (Hnew n v Hn Hg Ha) as Hin.
    destruct ps; [by apply elem_of_nil in Hin | done].
  - intros Hnone. destruct ps as [|[k v] ps]; [done |].
    destruct (Hinv k v) as [Hnil|(Hk & Hg & Ha)]; [by left | by apply elem_of_nil in Hnil |].
    by destruct (Hnone k v Hk Hg).
Qed.

(** X14.  For a rule entry on a parameter named otherwise than [__proto__]
    whose value is read as an own property or as [undefined], and a
    predicate that is a function: the parameter is extracted exactly when
    the predicate returns the boolean [true]; with any other result, truthy
    ones included, nothing is extracted and the message quotes the string
    form of the value, for a value that has the default one. *)
Theorem predicate_result_decides σ p n f v r :
  get σ p n = Return v →
  invoke σ f v = Return r →
  n ≠ "__proto__" →
  (r = VBool true →
   _executeValidationFunction σ p n f
   = Return {| Result.errors := []; Result.params := [(n, v)] |})
  ∧ (r ≠ VBool true → ∀ s, to_string σ v = Return s →
     _executeValidationFunction σ p n f
     = Return {| Result.errors :=
                   ["Invalid value of '" +:+ s
                    +:+ "' was provided for parameter '" +:+ n +:+ "'."];
                 Result.params := [] |}).
Proof.
  intros Hg Hr Hn. unfold _executeValidationFunction.
  rewrite (bool_decide_eq_true_2 _ (invoke_callable σ f v r Hr)). simpl.
  rewrite Hg. simpl. rewrite Hr. simpl. split.
  - intros ->. rewrite bool_decide_eq_true_2 by done.
    by rewrite (local_set_first n v Hn).
  - intros Hne s Hs. rewrite (bool_decide_eq_false_2 _ Hne). by rewrite Hs.
Qed.


(** *** Required names, lines 109-127 and 254-276 *)

Lemma get_alloc σ p n l o :
  in_store σ p → σ !! l = None → get (<[l := o]> σ) p n = get σ p n.
Proof.
  intros Hin Hl. destruct p as [| |b|z| |s|lp]; try done.
  assert (Hne : l ≠ lp) by (intros ->; simpl in Hin; rewrite Hl in Hin; by destruct Hin).
  unfold get, kind_of, props_of. by rewrite lookup_insert_ne.
Qed.

Lemma required_names_loop self σ p lt prefix names m errs :
  _defaultValidation self = VUndefined →
  in_store σ p →
  σ !! lt = None →
  Forall (ordinary_name σ p prefix) names →
  validate_loop self p (VRef lt) prefix (map ReqString names) errs
    (<[lt := Obj PlainObject m]> σ)
  = (<[lt := Obj PlainObject (present_table σ p prefix names m)]> σ,
     Return (errs ++ map undefined_message (List.filter (is_missing σ p) names))).
Proof.
  intros Hdv Hin Hlt Hall. revert m errs.
  induction Hall as [|n names (Hn & Hproto & Hkey & v & Hg) _ IH]; intros m errs.
  - simpl. unfold ret. by rewrite app_nil_r.
  - cbn [map validate_loop validate_requirement]. unfold bind at 1.
    assert (Htruthy : truthy (VStr n) = true).
    { simpl. apply negb_true_iff. by apply String.eqb_neq. }
    rewrite Htruthy. unfold defaultValidation. rewrite Hdv. cbn [truthy].
    unfold bind, reading, _executeValidationFunction. cbn [callee_type].
    rewrite bool_decide_eq_true_2 by done. cbn [negb].
    rewrite (get_alloc σ p n lt _ Hin Hlt), Hg. cbn [obind invoke].
    assert (Hreads : reads σ p n = v) by (unfold reads; by rewrite Hg).
    unfold present_table, is_missing. cbn [List.filter]. rewrite Hreads.
    destruct (decide (v = VUndefined)) as [->|Hv].
    + rewrite (bool_decide_eq_true_2 (VUndefined = VUndefined)) by done.
      cbn [isDefined negb bool_decide]. rewrite bool_decide_eq_false_2 by done.
      cbn [to_string obind Result.params Result.errors _assignProperties ret negb map].
      change ("Invalid value of '" +:+ "undefined" +:+ "' was provided for parameter '"
              +:+ n +:+ "'.") with (undefined_message n).
      specialize (IH m (errs ++ [undefined_message n])).
      unfold present_table, is_missing in IH. rewrite IH.
      by rewrite <- app_assoc.
    + rewrite (bool_decide_eq_false_2 (v = VUndefined)) by done.
      unfold isDefined. rewrite (bool_decide_eq_false_2 (v = VUndefined)) by done.
      cbn [negb]. rewrite bool_decide_eq_true_2 by done.
      rewrite (local_set_first n v Hproto).
      cbn [obind Result.params Result.errors _assignProperties].
      unfold bind at 1. unfold assign.
      rewrite (proj2 (String.eqb_neq _ _) Hkey).
      unfold kind_of at 1. rewrite lookup_insert_eq. cbn [okind].
      unfold set_prop, kind_of, props_of. rewrite lookup_insert_eq. cbn [okind oprops].
      rewrite insert_insert_eq. unfold ret. rewrite app_nil_r.
      cbn [fold_left]. rewrite Hreads.
      specialize (IH (<[prefix +:+ n := v]> m) errs).
      unfold present_table, is_missing in IH. by rewrite IH.
Qed.

(** X15.  With the default predicate and no output target, a list of
    required names fails exactly when [paramsProvided] reads [undefined] at
    one of them; the error then carries one message per such name, in the
    order of the list, and the names that are present are written to the
    new object all the same.  This for names other than the empty string
    and [__proto__] that [paramsProvided] holds as own properties or does
    not have at all, and a prefix that does not complete one of them to
    [__proto__]. *)
Theorem required_names_report_missing self σ p names target opts cls prefix :
  _defaultValidation self = VUndefined →
  nullish target = true →
  _getValidationErrorSubclass σ opts = Return cls →
  truthy p = true →
  in_store σ p →
  effective_prefix opts = VStr prefix →
  Forall (ordinary_name σ p prefix) names →
  validate self p (AnArray (map ReqString names)) target opts σ
  = (<[fresh_loc σ := Obj PlainObject (present_table σ p prefix names ∅)]> σ,
     match List.filter (is_missing σ p) names with
     | [] => Return (VRef (fresh_loc σ))
     | missing => Throw (mkError cls (String.concat " " (map undefined_message missing)))
     end).
Proof.
  intros Hdv Ht Hc Hp Hin Hpre Hall.
  rewrite (validate_conclude self σ p _ target opts _ _ cls prefix
             (_getExtractedParamsObject_nullish target σ Ht) Hc Hp Hpre).
  unfold empty_object.
  rewrite (required_names_loop self σ p (fresh_loc σ) prefix names ∅ [] Hdv Hin
             (fresh_loc_unbound σ) Hall).
  unfold conclude. simpl.
  by destruct (List.filter (is_missing σ p) names).
Qed.

(** *** The further properties at concrete calls *)

Lemma default_predicate_two_readings_witness :
  _performLogicalOrParamValidation lenientValidator zoo (VRef 0%nat) ["cat"]
  = Return {| Result.errors := []; Result.params := [("cat", VStr "Garfield")] |}
  ∧ _executeValidationFunction zoo (VRef 0%nat) "cat" (defaultValidation lenientValidator)
    = Return {| Result.errors :=
                  ["Invalid value of '" +:+ "Garfield"
                   +:+ "' was provided for parameter '" +:+ "cat" +:+ "'."];
                Result.params := [] |}.
Proof.
  apply (default_predicate_two_readings lenientValidator zoo (VRef 0%nat) "cat"
           (VStr "Garfield") (VNum 1) "Garfield" eq_refl eq_refl eq_refl).
  - discriminate.
  - discriminate.
  - reflexivity.
Defined.

Lemma other_objects_untouched_witness :
  (validate parameterValidator (VRef 0%nat) (AnArray [ReqString "cat"; ReqString "emu"])
     (VRef 5%nat) no_options zoo).1 !! 0%nat
  = zoo !! 0%nat.
Proof.
  apply (other_objects_untouched parameterValidator (VRef 0%nat)
           (AnArray [ReqString "cat"; ReqString "emu"]) (VRef 5%nat) no_options zoo 0%nat).
  - vm_compute. eexists. reflexivity.
  - discriminate.
Defined.

Lemma each_call_returns_a_new_object_witness :
  (∀ v', (validate parameterValidator (VRef 1%nat) (AnArray [ReqString "dog"]) VNull no_options
            (validate parameterValidator (VRef 0%nat) (AnArray [ReqString "cat"]) VUndefined
               no_options zoo).1).2 = Return v' →
         v' ≠ VRef 9%nat)
  ∧ ∃ l, VRef 9%nat = VRef l
         ∧ is_Some ((validate parameterValidator (VRef 0%nat) (AnArray [ReqString "cat"])
                       VUndefined no_options zoo).1 !! l)
         ∧ (validate parameterValidator (VRef 1%nat) (AnArray [ReqString "dog"]) VNull
              no_options
              (validate parameterValidator (VRef 0%nat) (AnArray [ReqString "cat"]) VUndefined
                 no_options zoo).1).1 !! l
           = (validate parameterValidator (VRef 0%nat) (AnArray [ReqString "cat"]) VUndefined
                no_options zoo).1 !! l.
Proof.
  apply (each_call_returns_a_new_object parameterValidator (VRef 0%nat)
           (AnArray [ReqString "cat"]) VUndefined no_options zoo _ (VRef 9%nat)
           parameterValidator (VRef 1%nat) (AnArray [ReqString "dog"]) VNull no_options).
  - reflexivity.
  - reflexivity.
  - vm_compute. reflexivity.
Defined.

Lemma validate_in_two_calls_witness :
  validate parameterValidator (VRef 0%nat)
    (AnArray ([ReqString "cat"] ++ [ReqString "dog"; ReqString "emu"])) VUndefined no_options zoo
  = validate parameterValidator (VRef 0%nat) (AnArray [ReqString "dog"; ReqString "emu"])
      (VRef 9%nat) no_options
      (validate parameterValidator (VRef 0%nat) (AnArray [ReqString "cat"]) VUndefined
         no_options zoo).1.
Proof.
  apply (validate_in_two_calls parameterValidator (VRef 0%nat) [ReqString "cat"]
           [ReqString "dog"; ReqString "emu"] VUndefined no_options zoo).
  vm_compute. reflexivity.
Defined.



Lemma logical_or_group_witness :
  ∃ res, _performLogicalOrParamValidation parameterValidator zoo (VRef 8%nat)
           ["cat"; "dragon"; "unicorn"] = Return res
    ∧ (∀ n v, (n, v) ∈ Result.params res ↔
         n ∈ ["cat"; "dragon"; "unicorn"] ∧ get zoo (VRef 8%nat) n = Return v
         ∧ accepts parameterValidator zoo v)
    ∧ ((∃ n v, n ∈ ["cat"; "dragon"; "unicorn"] ∧ get zoo (VRef 8%nat) n = Return v
               ∧ accepts parameterValidator zoo v) →
       Result.errors res = [])
    ∧ ((∀ n v, n ∈ ["cat"; "dragon"; "unicorn"] → get zoo (VRef 8%nat) n = Return v →
               ¬ accepts parameterValidator zoo v) →
       Result.params res = []
       ∧ Result.errors res = [group_message ["cat"; "dragon"; "unicorn"]]).
Proof.
  apply (logical_or_group parameterValidator zoo (VRef 8%nat) ["cat"; "dragon"; "unicorn"]).
  - discriminate.
  - intros H. rewrite !elem_of_cons, elem_of_nil in H.
    destruct H as [H|[H|[H|[]]]]; discriminate.
  - intros n Hn. rewrite !elem_of_cons, elem_of_nil in Hn.
    destruct Hn as [->|[->|[->|[]]]]; eexists _, _; split; vm_compute; reflexivity.
Defined.

Lemma predicate_result_decides_witness :
  (VNum 1 = VBool true →
   _executeValidationFunction zoo (VRef 0%nat) "cat" (Supplied (VRef 6%nat))
   = Return {| Result.errors := []; Result.params := [("cat", VStr "Garfield")] |})
  ∧ (VNum 1 ≠ VBool true → ∀ s, to_string zoo (VStr "Garfield") = Return s →
     _executeValidationFunction zoo (VRef 0%nat) "cat" (Supplied (VRef 6%nat))
     = Return {| Result.errors :=
                   ["Invalid value of '" +:+ s
                    +:+ "' was provided for parameter '" +:+ "cat" +:+ "'."];
                 Result.params := [] |}).
Proof.
  apply (predicate_result_decides zoo (VRef 0%nat) "cat" (Supplied (VRef 6%nat))
           (VStr "Garfield") (VNum 1)).
  - reflexivity.
  - reflexivity.
  - discriminate.
Defined.

Lemma required_names_report_missing_witness :
  validate parameterValidator (VRef 1%nat)
    (AnArray (map ReqString ["cat"; "squirrel"; "dog"; "kangaroo"]))
    VUndefined no_options zoo
  = (<[fresh_loc zoo := Obj PlainObject
                          (present_table zoo (VRef 1%nat) ""
                             ["cat"; "squirrel"; "dog"; "kangaroo"] ∅)]> zoo,
     match List.filter (is_missing zoo (VRef 1%nat)) ["cat"; "squirrel"; "dog"; "kangaroo"] with
     | [] => Return (VRef (fresh_loc zoo))
     | missing => Throw (mkError ParameterValidationError_
                           (String.concat " " (map undefined_message missing)))
     end).
Proof.
  apply (required_names_report_missing parameterValidator zoo (VRef 1%nat)
           ["cat"; "squirrel"; "dog"; "kangaroo"] VUndefined no_options
           ParameterValidationError_ "").
  - reflexivity.
  - reflexivity.
  - reflexivity.
  - reflexivity.
  - vm_compute. eexists. reflexivity.
  - reflexivity.
  - repeat first [ apply Forall_nil_2
                 | apply Forall_cons_2;
                   [split; [discriminate |]; split; [discriminate |];
                    split; [discriminate |]; eexists; vm_compute; reflexivity |] ].
Defined.

(** The call of the witness above, evaluated. *)
Example test_required_names_report :
  validate parameterValidator (VRef 1%nat)
    (AnArray (map ReqString ["cat"; "squirrel"; "dog"; "kangaroo"]))
    VUndefined no_options zoo
  = (<[9%nat := plain [("cat", VStr "Garfield"); ("dog", VStr "Jake")]]> zoo,
     Throw (mkError ParameterValidationError_
              ("Invalid value of 'undefined' was provided for parameter 'squirrel'. "
               +:+ "Invalid value of 'undefined' was provided for parameter 'kangaroo'."))).
Proof. vm_compute. reflexivity. Qed.
